(** * MedicationParser: a shallow embedding of [medication_parser.py]

    The development follows the Python module function by function.

    Modelling conventions.
    - A Python [str] is a sequence of code points.  The model covers the
      texts whose code points are below 256, one [ascii] per code point,
      as a [string] of the Standard Library.
    - [str.lower], the [in] operator, [str.find], slicing and [re.search]
      are builtins; each gets a definition of its own below, named after
      the builtin.
    - A [dict] is an association list in insertion order; a dict literal
      is built by inserting its items from left to right, so a repeated
      key keeps its first position and its last value.
    - A raised exception is a value of type [exn]; functions that can
      raise return a [result].  The aggregator's field
      [self.medications] is threaded explicitly.
    - Type annotations have no effect on what the methods compute, and
      the definitions of the methods leave them out.  What they do when
      the class body is executed depends on the interpreter and is
      modelled apart, in [class_body] and [run_script]. *)

From Stdlib Require Import Bool Arith ZArith List Lia Ascii String.
From Stdlib Require Import DecimalString.
Import ListNotations.
Open Scope string_scope.

(** ** Builtins on [str] *)

Module Str.

(** Code points as numbers. *)
Definition code (c : ascii) : nat := nat_of_ascii c.

Definition in_range (lo hi n : nat) : bool :=
  ((lo <=? n) && (n <=? hi))%nat.

(** [str.lower] on one code point below 256: the ASCII capitals and the
    Latin-1 capitals U+00C0..U+00DE (all but the multiplication sign
    U+00D7) move up by 32; everything else is unchanged. *)
Definition lower_char (c : ascii) : ascii :=
  let n := code c in
  if in_range 65 90 n || (in_range 192 222 n && negb (n =? 215)%nat)
  then ascii_of_nat (n + 32)
  else c.

Fixpoint lower (s : string) : string :=
  match s with
  | EmptyString => EmptyString
  | String c s' => String (lower_char c) (lower s')
  end.

(** [str.upper] on one ASCII code point; [capitalize] is only ever
    applied to vocabulary names, which are ASCII. *)
Definition upper_char (c : ascii) : ascii :=
  let n := code c in
  if in_range 97 122 n then ascii_of_nat (n - 32) else c.

(** [str.capitalize]: first character upper-cased, the rest lower-cased. *)
Definition capitalize (s : string) : string :=
  match s with
  | EmptyString => EmptyString
  | String c s' => String (upper_char c) (lower s')
  end.

(** [s.find(pat)], scanning left to right; [pos] is the index of the
    first character of [s] in the whole string. *)
Fixpoint find_from (pat s : string) (pos : nat) : option nat :=
  if prefix pat s then Some pos
  else match s with
       | EmptyString => None
       | String _ s' => find_from pat s' (S pos)
       end.

(** [s.find(pat)]: index of the first occurrence, or -1. *)
Definition find (s pat : string) : Z :=
  match find_from pat s 0 with
  | Some n => Z.of_nat n
  | None => (-1)%Z
  end.

(** [pat in s]. *)
Definition contains (pat s : string) : bool :=
  match find_from pat s 0 with
  | Some _ => true
  | None => false
  end.

(** [s[lo:hi]] with Python's treatment of negative and oversized
    indices. *)
Definition slice (s : string) (lo hi : Z) : string :=
  let n := Z.of_nat (length s) in
  let norm i := if (i <? 0)%Z then Z.max 0 (i + n) else Z.min i n in
  let lo' := norm lo in
  let hi' := norm hi in
  substring (Z.to_nat lo') (Z.to_nat (hi' - lo')) s.

(** [sep.join(parts)]. *)
Fixpoint join (sep : string) (parts : list string) : string :=
  match parts with
  | [] => EmptyString
  | [p] => p
  | p :: rest => p ++ sep ++ join sep rest
  end.

End Str.

(** ** Exceptions *)

Inductive exn : Type :=
| KeyError (key : string).

Inductive result (A : Type) : Type :=
| Ok (a : A)
| Raise (e : exn).
Arguments Ok {A} a.
Arguments Raise {A} e.

(** An exception raised by [c] ends the computation; otherwise [f] goes
    on with the value. *)
Definition bind {A B : Type} (c : result A) (f : A -> result B) : result B :=
  match c with
  | Ok a => f a
  | Raise e => Raise e
  end.

Notation "x <- c ;; k" := (bind c (fun x => k))
  (at level 61, c at next level, right associativity).

(** ** Dictionaries in insertion order *)

Module Dict.

Definition t (V : Type) : Type := list (string * V).

Fixpoint get {V} (d : t V) (k : string) : option V :=
  match d with
  | [] => None
  | (k', v) :: d' => if String.eqb k' k then Some v else get d' k
  end.

(** [d[k] = v]: an existing key keeps its place, a new one goes last. *)
Fixpoint set {V} (d : t V) (k : string) (v : V) : t V :=
  match d with
  | [] => [(k, v)]
  | (k', v') :: d' =>
      if String.eqb k' k then (k', v) :: d' else (k', v') :: set d' k v
  end.

(** A dict display [{k1: v1, k2: v2, ...}]. *)
Definition literal {V} (items : list (string * V)) : t V :=
  fold_left (fun d kv => set d (fst kv) (snd kv)) items [].

(** [d[k]], raising [KeyError] on a missing key. *)
Definition getitem {V} (d : t V) (k : string) : result V :=
  match get d k with
  | Some v => Ok v
  | None => Raise (KeyError k)
  end.

End Dict.

(** ** Regular expressions: the fragment of [re] the dose pattern uses *)

Module Re.

Inductive regex : Type :=
| Eps                           (* the empty pattern *)
| Chr (p : ascii -> bool)       (* one character of a class *)
| Seq (r1 r2 : regex)           (* r1 r2 *)
| Alt (r1 r2 : regex)           (* r1|r2, left alternative first *)
| Opt (r : regex)               (* r?, greedy *)
| Star (r : regex)              (* r*, greedy *)
| Group (n : nat) (r : regex).  (* the n-th capturing group *)

(** [\d] on code points below 256: the ASCII digits. *)
Definition is_digit (c : ascii) : bool := Str.in_range 48 57 (Str.code c).

(** [\s] on code points below 256: TAB..CR, FS..US, space, NEL, NBSP. *)
Definition is_space (c : ascii) : bool :=
  let n := Str.code c in
  Str.in_range 9 13 n || Str.in_range 28 32 n
  || (n =? 133)%nat || (n =? 160)%nat.

Definition Digit : regex := Chr is_digit.
Definition Space : regex := Chr is_space.

(** An ordinary character stands for itself. *)
Definition Lit (c : ascii) : regex := Chr (Ascii.eqb c).

(** [r+] is one [r] and then [r*]. *)
Definition Plus (r : regex) : regex := Seq r (Star r).

(** A literal word. *)
Fixpoint word (w : string) : regex :=
  match w with
  | EmptyString => Eps
  | String c w' => Seq (Lit c) (word w')
  end.

(** Group marks: group number, start and end index, latest first. *)
Definition marks : Type := list (nat * (nat * nat)).

Fixpoint mark (m : marks) (n : nat) : option (nat * nat) :=
  match m with
  | [] => None
  | (n', se) :: m' => if (n' =? n)%nat then Some se else mark m' n
  end.

(** A continuation receives the index reached, the text left and the
    marks set so far; it says whether the rest of the pattern matches
    from there. *)
Definition cont : Type := nat -> string -> marks -> option marks.

Definition matcher : Type := nat -> string -> marks -> cont -> option marks.

Definition char_step (p : ascii -> bool) : matcher :=
  fun pos s m k =>
    match s with
    | String c s' => if p c then k (S pos) s' m else None
    | EmptyString => None
    end.

(** A greedy repetition of [body]: one more iteration is tried before
    going on with [k]; an iteration that consumes nothing ends the
    repetition, so the length of the text left bounds the number of
    iterations and serves as [fuel]. *)
Fixpoint star_loop (body : matcher) (k : cont) (fuel : nat)
         (pos : nat) (s : string) (m : marks) : option marks :=
  match fuel with
  | O => k pos s m
  | S fuel' =>
      match body pos s m
              (fun pos' s' m' =>
                 if (pos <? pos')%nat
                 then star_loop body k fuel' pos' s' m'
                 else None)
      with
      | Some res => Some res
      | None => k pos s m
      end
  end.

(** Backtracking matcher in continuation-passing style: the first
    way of matching [r] at [pos] that lets [k] succeed. *)
Fixpoint rmatch (r : regex) : matcher :=
  fun pos s m k =>
    match r with
    | Eps => k pos s m
    | Chr p => char_step p pos s m k
    | Seq r1 r2 =>
        rmatch r1 pos s m (fun pos' s' m' => rmatch r2 pos' s' m' k)
    | Alt r1 r2 =>
        match rmatch r1 pos s m k with
        | Some res => Some res
        | None => rmatch r2 pos s m k
        end
    | Opt r1 =>
        match rmatch r1 pos s m k with
        | Some res => Some res
        | None => k pos s m
        end
    | Star r1 => star_loop (rmatch r1) k (length s) pos s m
    | Group n r1 =>
        rmatch r1 pos s m
          (fun pos' s' m' => k pos' s' ((n, (pos, pos')) :: m'))
    end.

Definition accept : cont := fun _ _ m => Some m.

(** [re.search]: the match at the leftmost index where one exists. *)
Fixpoint search_from (r : regex) (pos : nat) (s : string) : option marks :=
  match rmatch r pos s [] accept with
  | Some m => Some m
  | None =>
      match s with
      | EmptyString => None
      | String _ s' => search_from r (S pos) s'
      end
  end.

Definition search (r : regex) (text : string) : option marks :=
  search_from r 0 text.

(** [match.group(n)] for a group that took part in the match (the
    empty string stands for a group that did not). *)
Definition group (text : string) (m : marks) (n : nat) : string :=
  match mark m n with
  | Some (a, b) => substring a (b - a) text
  | None => EmptyString
  end.

End Re.

(** ** The parser *)

(** The value of [extract_dose]: a dict with the keys ['value'] and
    ['unit']. *)
Record Dose : Type := mkDose { value : string; unit : string }.

(** One entry of the list [parse] returns: a dict with the keys ['name'],
    ['dose'], ['frequency'] and ['route']. *)
Record Medication : Type := mkMedication {
  name : string;
  dose : option Dose;
  frequency : option string;
  route : option string
}.

(** [DOSE_PATTERN]: group 1 is [\d+ \.? \d*], then comes [\s*], and
    group 2 is [mg|mcg|g|ml|units?]. *)
Definition DOSE_PATTERN : Re.regex :=
  Re.Seq
    (Re.Group 1
       (Re.Seq (Re.Plus Re.Digit)
          (Re.Seq (Re.Opt (Re.Lit ".")) (Re.Star Re.Digit))))
    (Re.Seq (Re.Star Re.Space)
       (Re.Group 2
          (Re.Alt (Re.word "mg")
             (Re.Alt (Re.word "mcg")
                (Re.Alt (Re.word "g")
                   (Re.Alt (Re.word "ml")
                      (Re.Seq (Re.word "unit") (Re.Opt (Re.Lit "s"))))))))).

Definition FREQUENCY_PATTERNS : Dict.t (list string) :=
  Dict.literal
    [ ("twice daily", ["bid"; "twice daily"; "twice a day"; "2x daily"]);
      ("three times daily", ["tid"; "three times daily"; "3x daily"]);
      ("four times daily", ["qid"; "four times daily"; "4x daily"]);
      ("as needed", ["prn"; "as needed"; "as required"]);
      ("at bedtime", ["hs"; "at bedtime"; "at night"; "qhs"]) ].

Definition ROUTE_PATTERNS : Dict.t (list string) :=
  Dict.literal
    [ ("intravenous", ["iv"; "intravenous"; "intravenously"]);
      ("intravenous", ["iv"; "intravenous"; "intravenously"]);
      ("intramuscular", ["im"; "intramuscular"]);
      ("subcutaneous", ["sc"; "subq"; "subcutaneous"]);
      ("topical", ["topical"; "topically"; "apply"]) ].

Definition NEGATION_PATTERNS : list string :=
  [ "negative for "; "none "; "never "; "stopped ";
    "discontinued "; "allergic to " ].

Definition KNOWN_MEDICATIONS : list string :=
  [ "metformin"; "lisinopril"; "amlodipine"; "omeprazole";
    "atorvastatin"; "simvastatin"; "levothyroxine"; "metoprolol";
    "losartan"; "gabapentin"; "hydrochlorothiazide"; "furosemide";
    "aspirin"; "ibuprofen"; "acetaminophen"; "prednisone";
    "amoxicillin"; "azithromycin"; "ciprofloxacin"; "insulin" ].

(** [extract_dose] *)
Definition extract_dose (text : string) : option Dose :=
  let text_lower := Str.lower text in
  match Re.search DOSE_PATTERN text_lower with
  | Some m =>
      Some {| value := Re.group text_lower m 1;
              unit := Re.group text_lower m 2 |}
  | None => None
  end.

(** The inner loop shared by the extractors:
    [for pattern in patterns: if pattern in text_lower: return ...]. *)
Fixpoint any_pattern_in (patterns : list string) (text_lower : string) : bool :=
  match patterns with
  | [] => false
  | pattern :: rest =>
      if Str.contains pattern text_lower then true
      else any_pattern_in rest text_lower
  end.

Definition check_order : list string :=
  [ "four times daily"; "three times daily"; "twice daily";
    "at bedtime"; "as needed"; "daily" ].

(** The loop [for freq_key in check_order] of [extract_frequency]. *)
Fixpoint frequency_loop (keys : list string) (text_lower : string)
  : result (option string) :=
  match keys with
  | [] => Ok None
  | freq_key :: rest =>
      patterns <- Dict.getitem FREQUENCY_PATTERNS freq_key ;;
      if any_pattern_in patterns text_lower then Ok (Some freq_key)
      else frequency_loop rest text_lower
  end.

(** [extract_frequency] *)
Definition extract_frequency (text : string) : result (option string) :=
  let text_lower := Str.lower text in
  frequency_loop check_order text_lower.

(** The loop [for standard_route, patterns in ....items()] of
    [extract_route]. *)
Fixpoint route_loop (items : Dict.t (list string)) (text_lower : string)
  : option string :=
  match items with
  | [] => None
  | (standard_route, patterns) :: rest =>
      if any_pattern_in patterns text_lower then Some standard_route
      else route_loop rest text_lower
  end.

(** [extract_route] *)
Definition extract_route (text : string) : option string :=
  let text_lower := Str.lower text in
  route_loop ROUTE_PATTERNS text_lower.

(** The loop of [find_medications], with the list [found] built so far. *)
Fixpoint find_loop (meds : list string) (text_lower : string)
         (found : list string) : list string :=
  match meds with
  | [] => found
  | med :: rest =>
      if Str.contains med text_lower
      then find_loop rest text_lower (found ++ [med])%list
      else find_loop rest text_lower found
  end.

(** [find_medications] *)
Definition find_medications (text : string) : list string :=
  let text_lower := Str.lower text in
  find_loop KNOWN_MEDICATIONS text_lower [].

(** [is_negated] *)
Definition is_negated (text medication : string) : bool :=
  let text_lower := Str.lower text in
  let med_lower := Str.lower medication in
  let med_pos := Str.find text_lower med_lower in
  if (med_pos =? -1)%Z then false
  else
    let window_start := Z.max 0 (med_pos - 50) in
    let text_before := Str.slice text_lower window_start med_pos in
    any_pattern_in NEGATION_PATTERNS text_before.

(** The aggregator object: its one field. *)
Record MedicationParser : Type := mkParser { medications : list Medication }.

(** [__init__] *)
Definition __init__ : MedicationParser := {| medications := [] |}.

(** The loop [for med_name in found_meds] of [parse], with the list
    [acc] of the records appended so far.  The three extractors are
    called anew for every name. *)
Fixpoint parse_loop (found_meds : list string) (text : string)
         (acc : list Medication) : result (list Medication) :=
  match found_meds with
  | [] => Ok acc
  | med_name :: rest =>
      let d := extract_dose text in
      f <- extract_frequency text ;;
      let r := extract_route text in
      let medication :=
        {| name := med_name; dose := d; frequency := f; route := r |} in
      parse_loop rest text (acc ++ [medication])%list
  end.

(** [parse]: the outcome and the parser afterwards.  The field is
    assigned after the loop, so a raised exception leaves it as it was. *)
Definition parse (text : string) (self : MedicationParser)
  : result (list Medication) * MedicationParser :=
  let found_meds := find_medications text in
  match parse_loop found_meds text [] with
  | Ok meds => (Ok meds, {| medications := meds |})
  | Raise e => (Raise e, self)
  end.

(** Truth value of an optional string: [None] and the empty string are
    false. *)
Definition truthy (o : option string) : bool :=
  match o with
  | Some (String _ _) => true
  | _ => false
  end.

Definition newline : string := String "010"%char EmptyString.

(** The body of the loop of [get_summary]: one line per record.  A dose
    dict has two keys and is therefore true. *)
Definition summary_line (med : Medication) : string :=
  let parts := [Str.capitalize (name med)] in
  let parts :=
    match dose med with
    | Some d => (parts ++ [(value d ++ unit d)%string])%list
    | None => parts
    end in
  let parts :=
    if truthy (route med)
    then (parts ++ [match route med with Some r => r | None => "" end])%list
    else parts in
  let parts :=
    if truthy (frequency med)
    then (parts ++ [match frequency med with Some f => f | None => "" end])%list
    else parts in
  Str.join " " parts.

(** [get_summary] *)
Definition get_summary (self : MedicationParser) : string :=
  match medications self with
  | [] => "No medications found."
  | meds => Str.join newline (map summary_line meds)
  end.

(** * Properties *)

(** No character of [s] is a decimal digit. *)
Fixpoint digit_free (s : string) : bool :=
  match s with
  | EmptyString => true
  | String c s' => negb (Re.is_digit c) && digit_free s'
  end.

(** ** Occurrences of a phrase in a text *)

(** [pat] occurs in [s]: some text before, the phrase, some text after. *)
Definition occurs (pat s : string) : Prop :=
  exists a b, s = a ++ pat ++ b.

(** [a] is the text before the first occurrence of [pat] in [s], and [b]
    the text after it. *)
Definition first_occurrence (pat s a b : string) : Prop :=
  s = a ++ pat ++ b /\
  forall a' b', s = a' ++ pat ++ b' -> length a <= length a'.

(** [w] is the lookback window of the text [a]: its last 50 characters,
    or all of it when it is shorter. *)
Definition lookback_window (w a : string) : Prop :=
  exists a0, a = a0 ++ w /\ length w = Nat.min 50 (length a).

(** The surface phrases of the five categories of [FREQUENCY_PATTERNS]. *)
Definition four_times_phrases : list string :=
  ["qid"; "four times daily"; "4x daily"].
Definition three_times_phrases : list string :=
  ["tid"; "three times daily"; "3x daily"].
Definition twice_phrases : list string :=
  ["bid"; "twice daily"; "twice a day"; "2x daily"].
Definition bedtime_phrases : list string :=
  ["hs"; "at bedtime"; "at night"; "qhs"].
Definition needed_phrases : list string :=
  ["prn"; "as needed"; "as required"].

(** The record [parse] builds for one name. *)
Definition record_for (text : string) (f : option string) (med_name : string)
  : Medication :=
  {| name := med_name; dose := extract_dose text;
     frequency := f; route := extract_route text |}.

(** ** What a pattern matches *)

(** The words a pattern matches, whatever the matching strategy: the
    iterations of a repetition are non-empty, as in the matcher. *)
Inductive lang : Re.regex -> string -> Prop :=
| lang_Eps : lang Re.Eps ""
| lang_Chr (p : ascii -> bool) (c : ascii) :
    p c = true -> lang (Re.Chr p) (String c "")
| lang_Seq (r1 r2 : Re.regex) (w1 w2 : string) :
    lang r1 w1 -> lang r2 w2 -> lang (Re.Seq r1 r2) (w1 ++ w2)
| lang_Alt_l (r1 r2 : Re.regex) (w : string) :
    lang r1 w -> lang (Re.Alt r1 r2) w
| lang_Alt_r (r1 r2 : Re.regex) (w : string) :
    lang r2 w -> lang (Re.Alt r1 r2) w
| lang_Opt_none (r : Re.regex) : lang (Re.Opt r) ""
| lang_Opt_some (r : Re.regex) (w : string) :
    lang r w -> lang (Re.Opt r) w
| lang_Star_nil (r : Re.regex) : lang (Re.Star r) ""
| lang_Star_cons (r : Re.regex) (w1 w2 : string) :
    lang r w1 -> w1 <> "" -> lang (Re.Star r) w2 ->
    lang (Re.Star r) (w1 ++ w2)
| lang_Group (n : nat) (r : Re.regex) (w : string) :
    lang r w -> lang (Re.Group n r) w.

(** A repetition with enough fuel takes every word of its language. *)
Definition star_takes (r1 : Re.regex) (w : string) : Prop :=
  forall fuel pos s' k,
    length (w ++ s') <= fuel ->
    (forall m', k (pos + length w) s' m' <> None) ->
    forall m, Re.star_loop (Re.rmatch r1) k fuel pos (w ++ s') m <> None.

(** A pattern without capturing groups. *)
Fixpoint groupfree (r : Re.regex) : bool :=
  match r with
  | Re.Eps | Re.Chr _ => true
  | Re.Seq r1 r2 | Re.Alt r1 r2 => groupfree r1 && groupfree r2
  | Re.Opt r1 | Re.Star r1 => groupfree r1
  | Re.Group _ _ => false
  end.

(** Every character of [s] is in the class [p]. *)
Fixpoint all_in (p : ascii -> bool) (s : string) : bool :=
  match s with
  | EmptyString => true
  | String c s' => p c && all_in p s'
  end.

(** The two groups of [DOSE_PATTERN]. *)
Definition dose_number : Re.regex :=
  Re.Seq (Re.Plus Re.Digit)
    (Re.Seq (Re.Opt (Re.Lit ".")) (Re.Star Re.Digit)).

Definition dose_unit : Re.regex :=
  Re.Alt (Re.word "mg")
    (Re.Alt (Re.word "mcg")
       (Re.Alt (Re.word "g")
          (Re.Alt (Re.word "ml")
             (Re.Seq (Re.word "unit") (Re.Opt (Re.Lit "s")))))).

(** The units [DOSE_PATTERN] knows. *)
Definition dose_units : list string :=
  ["mg"; "mcg"; "g"; "ml"; "unit"; "units"].

(** A number as [DOSE_PATTERN] reads it: digits, at least one, then
    possibly a dot, then possibly more digits. *)
Definition number_like (v : string) : Prop :=
  exists d1 dt d2,
    v = d1 ++ dt ++ d2 /\ d1 <> "" /\
    all_in Re.is_digit d1 = true /\ (dt = "" \/ dt = ".") /\
    all_in Re.is_digit d2 = true.

(** A dose in a text: a number, white space or none, and a unit. *)
Definition dose_like (v ws u : string) : Prop :=
  number_like v /\ all_in Re.is_space ws = true /\ In u dose_units.

(** At no index inside [p] does the dose pattern match the text
    [p ++ rest]. *)
Fixpoint no_dose_starts (p rest : string) : bool :=
  match p with
  | EmptyString => true
  | String _ p' =>
      match Re.rmatch DOSE_PATTERN 0 (p ++ rest) [] Re.accept with
      | Some _ => false
      | None => no_dose_starts p' rest
      end
  end.

(** The parts of a summary line after the name, when nothing found is
    left out: the dose as value and unit, the route, the frequency. *)
Definition detail_parts (d : option Dose) (r f : option string)
  : list string :=
  (match d with Some d => [(value d ++ unit d)%string] | None => [] end
   ++ match r with Some r => [r] | None => [] end
   ++ match f with Some f => [f] | None => [] end)%list.

(** ** The demonstration *)

(** ["-" * n] *)
Fixpoint repeat_string (s : string) (n : nat) : string :=
  match n with
  | O => EmptyString
  | S n' => s ++ repeat_string s n'
  end.

(** [str(n)] for a non-negative integer. *)
Definition str_of_nat (n : nat) : string :=
  NilZero.string_of_uint (Nat.to_uint n).

(** The note of [main], a triple-quoted literal: each line ends in a
    line feed and starts with the four blanks of the indentation. *)
Definition sample_note : string :=
  newline
  ++ "    Patient is a 55 y/o male with Type 2 Diabetes and Hypertension."
  ++ newline
  ++ "    Current medications:" ++ newline
  ++ "    - Metformin 500mg PO twice daily" ++ newline
  ++ "    - Lisinopril 10mg oral daily" ++ newline
  ++ "    - Aspirin 81mg by mouth daily" ++ newline
  ++ "    ".

(** The function [main], once the module has defined it: what its
    calls of [print] write, one entry per call.  The call of [parse]
    comes before all of them, so an exception it raised would leave
    nothing written.  Whether the module gets as far as defining [main]
    is the matter of [run_script] below. *)
Definition main : result (list string) :=
  let parser := __init__ in
  match parse sample_note parser with
  | (Raise e, _) => Raise e
  | (Ok results, parser) =>
      Ok [ "Parsed Medications:";
           repeat_string "-" 40;
           get_summary parser;
           repeat_string "-" 40;
           "Total medications found: " ++ str_of_nat (List.length results) ]
  end.

(** ** Running the module *)

(** When the interpreter evaluates the annotations of a [def]: as the
    function is defined (CPython up to 3.13), or only when they are
    asked for (CPython from 3.14), which this module never does. *)
Inductive annotations : Type :=
| AtDefinition
| Deferred.

(** What ends a run of the module early: a name that is not bound, or
    an exception that [main] lets through. *)
Inductive script_error : Type :=
| NameError (name : string)
| Uncaught (e : exn).

(** The names the module has bound when the class body starts: the one
    of [import re]. *)
Definition module_globals : list string := ["re"].

(** The builtins among the names the annotations load. *)
Definition builtins : list string := ["str"; "bool"].

(** The names the class body binds in front of its first [def]. *)
Definition class_attributes : list string :=
  [ "DOSE_PATTERN"; "FREQUENCY_PATTERNS"; "ROUTE_PATTERNS";
    "NEGATION_PATTERNS"; "KNOWN_MEDICATIONS" ].

(** The [def]s of the class body in their order, each with the names its
    annotations load, in the order of evaluation: the parameters from
    left to right and then the result, and within a subscription the
    subscripted name before its arguments. *)
Definition def_annotations : list (string * list string) :=
  [ ("__init__", []);
    ("extract_dose", ["str"; "Optional"; "Dict"; "str"; "str"]);
    ("extract_frequency", ["str"; "Optional"; "str"]);
    ("extract_route", ["str"; "Optional"; "str"]);
    ("find_medications", ["str"; "List"; "str"]);
    ("is_negated", ["str"; "str"; "bool"]);
    ("parse", ["str"; "List"; "Dict"]);
    ("get_summary", ["str"]) ].

(** The first of [names] that is not in [bound]. *)
Fixpoint first_unbound (bound names : list string) : option string :=
  match names with
  | [] => None
  | n :: rest =>
      if existsb (String.eqb n) bound then first_unbound bound rest
      else Some n
  end.

(** The [def]s of the class body one after the other: the annotations
    are evaluated, then the name of the function is bound. *)
Fixpoint define_all (bound : list string) (defs : list (string * list string))
  : option string :=
  match defs with
  | [] => None
  | (f, names) :: rest =>
      match first_unbound bound names with
      | Some n => Some n
      | None => define_all (f :: bound) rest
      end
  end.

(** The execution of the class body, as far as it can fail. *)
Definition class_body (a : annotations) : option script_error :=
  match a with
  | Deferred => None
  | AtDefinition =>
      option_map NameError
        (define_all (class_attributes ++ module_globals ++ builtins)%list
                    def_annotations)
  end.

(** The module run as a script: the class body, the definition of
    [main], and the call of [main] at the end.  The outcome is what was
    printed and the error that ended the run, if one did. *)
Definition run_script (a : annotations) : list string * option script_error :=
  match class_body a with
  | Some e => ([], Some e)
  | None =>
      match main with
      | Ok printed => (printed, None)
      | Raise e => ([], Some (Uncaught e))
      end
  end.

Section StringFacts.

Lemma append_assoc (a b c : string) : (a ++ b) ++ c = a ++ b ++ c.
Proof. induction a; simpl; congruence. Qed.

Lemma length_append (a b : string) :
  length (a ++ b) = length a + length b.
Proof. induction a; simpl; auto. Qed.

Lemma lower_append (a b : string) :
  Str.lower (a ++ b) = Str.lower a ++ Str.lower b.
Proof. induction a; simpl; congruence. Qed.

Lemma prefix_append (p r : string) : prefix p (p ++ r) = true.
Proof.
  induction p as [|c p IH]; simpl.
  - destruct r; reflexivity.
  - destruct (ascii_dec c c); [assumption | contradiction].
Qed.

Lemma prefix_inv (p s : string) :
  prefix p s = true -> exists r, s = p ++ r.
Proof.
  revert s; induction p as [|c p IH]; intros s H.
  - exists s; reflexivity.
  - destruct s as [|d s]; simpl in H; [discriminate|].
    destruct (ascii_dec c d) as [->|]; [|discriminate].
    destruct (IH _ H) as [r ->]. exists r; reflexivity.
Qed.

Lemma find_from_unfold (pat s : string) (pos : nat) :
  Str.find_from pat s pos =
  if prefix pat s then Some pos
  else match s with
       | EmptyString => None
       | String _ s' => Str.find_from pat s' (S pos)
       end.
Proof. destruct s; reflexivity. Qed.

(** What [find_from] returns is the first occurrence. *)
Lemma find_from_Some (pat s : string) (pos n : nat) :
  Str.find_from pat s pos = Some n ->
  exists a b, first_occurrence pat s a b /\ n = pos + length a.
Proof.
  revert pos; induction s as [|c s IH]; intros pos H;
    rewrite find_from_unfold in H.
  - destruct pat; simpl in H; [|discriminate]. injection H as <-.
    exists "", ""; repeat split; simpl; auto with arith.
  - destruct (prefix pat (String c s)) eqn:P.
    + injection H as <-. destruct (prefix_inv _ _ P) as [r E].
      exists "", r; repeat split; simpl; auto with arith.
    + destruct (IH _ H) as (a & b & [E M] & ->).
      exists (String c a), b; repeat split; simpl.
      * now rewrite E.
      * intros [|c' a'] b' E'; simpl in E'.
        -- rewrite E', prefix_append in P; discriminate.
        -- injection E' as _ E'. apply le_n_S, (M a' b'), E'.
      * lia.
Qed.

Lemma find_from_None (pat s : string) (pos : nat) :
  Str.find_from pat s pos = None -> ~ occurs pat s.
Proof.
  revert pos; induction s as [|c s IH]; intros pos H (a & b & E);
    rewrite find_from_unfold in H.
  - destruct pat; simpl in H; [discriminate|].
    destruct a; simpl in E; discriminate.
  - destruct (prefix pat (String c s)) eqn:P; [discriminate|].
    destruct a as [|c' a]; simpl in E.
    + rewrite E, prefix_append in P; discriminate.
    + injection E as _ E. apply (IH _ H). now exists a, b.
Qed.

(** The first occurrence is where [find_from] stops. *)
Lemma find_from_first (pat s a b : string) (pos : nat) :
  first_occurrence pat s a b ->
  Str.find_from pat s pos = Some (pos + length a).
Proof.
  intros [E M]. destruct (Str.find_from pat s pos) as [n|] eqn:F.
  - destruct (find_from_Some _ _ _ _ F) as (a1 & b1 & [E1 M1] & ->).
    f_equal. f_equal.
    pose proof (M _ _ E1). pose proof (M1 _ _ E). lia.
  - exfalso. apply (find_from_None _ _ _ F). now exists a, b.
Qed.

(** The [in] operator decides [occurs]. *)
Lemma contains_iff (pat s : string) :
  Str.contains pat s = true <-> occurs pat s.
Proof.
  unfold Str.contains.
  destruct (Str.find_from pat s 0) as [n|] eqn:F; split; intro H;
    try discriminate; auto.
  - destruct (find_from_Some _ _ _ _ F) as (a & b & [E _] & _).
    now exists a, b.
  - elim (find_from_None _ _ _ F H).
Qed.

Lemma contains_false_iff (pat s : string) :
  Str.contains pat s = false <-> ~ occurs pat s.
Proof.
  rewrite <- contains_iff. destruct (Str.contains pat s); intuition congruence.
Qed.

Lemma occurs_lower (pat s : string) :
  occurs pat s -> occurs (Str.lower pat) (Str.lower s).
Proof.
  intros (a & b & ->). exists (Str.lower a), (Str.lower b).
  now rewrite !lower_append.
Qed.

Lemma substring_skip (a r : string) (n : nat) :
  substring (length a) n (a ++ r) = substring 0 n r.
Proof. induction a; simpl; auto. Qed.

Lemma substring_skip_add (a r : string) (n m : nat) :
  substring (length a + n) m (a ++ r) = substring n m r.
Proof. induction a; simpl; auto. Qed.

Lemma substring_prefix (w r : string) :
  substring 0 (length w) (w ++ r) = w.
Proof.
  induction w as [|c w IH]; simpl.
  - destruct r; reflexivity.
  - now rewrite IH.
Qed.

(** In [any_pattern_in], some phrase of the list occurs. *)
Lemma any_pattern_in_iff (patterns : list string) (t : string) :
  any_pattern_in patterns t = true <->
  exists p, In p patterns /\ occurs p t.
Proof.
  induction patterns as [|q ps IH]; simpl.
  - split; [discriminate | intros (p & [] & _)].
  - destruct (Str.contains q t) eqn:C.
    + split; auto. intros _. exists q; split; auto.
      now apply contains_iff.
    + rewrite IH. split.
      * intros (p & I & O). exists p; auto.
      * intros (p & [<-|I] & O).
        -- apply contains_iff in O; congruence.
        -- exists p; auto.
Qed.

Lemma any_pattern_in_false (patterns : list string) (t : string) :
  any_pattern_in patterns t = false <->
  forall p, In p patterns -> ~ occurs p t.
Proof.
  pose proof (any_pattern_in_iff patterns t) as H.
  destruct (any_pattern_in patterns t); split; intros A; auto.
  - discriminate.
  - destruct (proj1 H eq_refl) as (p & I & O). elim (A p I O).
  - intros p I O. assert (false = true) by (apply H; eauto). discriminate.
Qed.

End StringFacts.

(** ** The tables, as the dict displays build them *)

Lemma ROUTE_PATTERNS_items :
  ROUTE_PATTERNS =
  [ ("intravenous", ["iv"; "intravenous"; "intravenously"]);
    ("intramuscular", ["im"; "intramuscular"]);
    ("subcutaneous", ["sc"; "subq"; "subcutaneous"]);
    ("topical", ["topical"; "topically"; "apply"]) ].
Proof. reflexivity. Qed.

(** The frequency table has no entry for the last key of [check_order]. *)
Lemma FREQUENCY_PATTERNS_daily :
  Dict.get FREQUENCY_PATTERNS "daily" = None.
Proof. reflexivity. Qed.

(** [extract_frequency] as a decision chain over the lower-cased text:
    the five categories of the table in the order of [check_order], and
    the failing lookup of ['daily'] at the end. *)
Lemma extract_frequency_chain (text : string) :
  extract_frequency text =
  let t := Str.lower text in
  if any_pattern_in four_times_phrases t then Ok (Some "four times daily")
  else if any_pattern_in three_times_phrases t
       then Ok (Some "three times daily")
  else if any_pattern_in twice_phrases t then Ok (Some "twice daily")
  else if any_pattern_in bedtime_phrases t then Ok (Some "at bedtime")
  else if any_pattern_in needed_phrases t then Ok (Some "as needed")
  else Raise (KeyError "daily").
Proof. reflexivity. Qed.

Lemma extract_route_chain (text : string) :
  extract_route text =
  let t := Str.lower text in
  if any_pattern_in ["iv"; "intravenous"; "intravenously"] t
  then Some "intravenous"
  else if any_pattern_in ["im"; "intramuscular"] t then Some "intramuscular"
  else if any_pattern_in ["sc"; "subq"; "subcutaneous"] t
       then Some "subcutaneous"
  else if any_pattern_in ["topical"; "topically"; "apply"] t
       then Some "topical"
  else None.
Proof. reflexivity. Qed.

(** ** The medication finder *)

Lemma find_loop_filter (meds : list string) (t : string)
      (found : list string) :
  find_loop meds t found =
  (found ++ filter (fun med => Str.contains med t) meds)%list.
Proof.
  revert found; induction meds as [|med meds IH]; intros found; simpl.
  - now rewrite app_nil_r.
  - destruct (Str.contains med t); rewrite IH; auto.
    now rewrite <- app_assoc.
Qed.

Lemma find_medications_filter (text : string) :
  find_medications text =
  filter (fun med => Str.contains med (Str.lower text)) KNOWN_MEDICATIONS.
Proof. unfold find_medications. now rewrite find_loop_filter. Qed.

Lemma KNOWN_MEDICATIONS_NoDup : NoDup KNOWN_MEDICATIONS.
Proof.
  unfold KNOWN_MEDICATIONS.
  repeat (constructor; [simpl; intuition discriminate|]).
  constructor.
Qed.

(** ** The aggregator *)

(** The loop of [parse] in closed form: nothing is extracted when no
    name was found; otherwise the outcome of [extract_frequency] decides
    whether the loop ends normally. *)
Lemma parse_loop_closed (found : list string) (text : string)
      (acc : list Medication) :
  parse_loop found text acc =
  match found with
  | [] => Ok acc
  | _ :: _ =>
      f <- extract_frequency text ;;
      Ok (acc ++ map (record_for text f) found)%list
  end.
Proof.
  revert acc; induction found as [|n found IH]; intros acc; simpl; auto.
  destruct (extract_frequency text) as [f|e]; simpl; auto.
  rewrite IH. destruct found; simpl.
  - reflexivity.
  - now rewrite <- app_assoc.
Qed.

(** ** The dose pattern *)

Section DoseFacts.

Lemma char_step_yes (p : ascii -> bool) (c : ascii) (pos : nat)
      (s : string) (m : Re.marks) (k : Re.cont) :
  p c = true -> Re.char_step p pos (String c s) m k = k (S pos) s m.
Proof. intros H; simpl; now rewrite H. Qed.

Lemma char_step_no (p : ascii -> bool) (c : ascii) (pos : nat)
      (s : string) (m : Re.marks) (k : Re.cont) :
  p c = false -> Re.char_step p pos (String c s) m k = None.
Proof. intros H; simpl; now rewrite H. Qed.

(** A repetition of a character class stops in front of a character
    outside the class. *)
Lemma star_class_stop (p : ascii -> bool) (k : Re.cont) (fuel pos : nat)
      (c : ascii) (s : string) (m : Re.marks) :
  p c = false ->
  Re.star_loop (Re.char_step p) k fuel pos (String c s) m =
  k pos (String c s) m.
Proof. intros H; destruct fuel; simpl; auto. now rewrite H. Qed.

(** It first tries to take a character of the class, and gives it back
    when the rest does not match. *)
Lemma star_class_step (p : ascii -> bool) (k : Re.cont) (fuel pos : nat)
      (c : ascii) (s : string) (m : Re.marks) :
  p c = true ->
  Re.star_loop (Re.char_step p) k (S fuel) pos (String c s) m =
  match Re.star_loop (Re.char_step p) k fuel (S pos) s m with
  | Some res => Some res
  | None => k pos (String c s) m
  end.
Proof.
  intros H; simpl. rewrite H.
  now rewrite (proj2 (Nat.ltb_lt pos (S pos)) (Nat.lt_succ_diag_r pos)).
Qed.

(** No dose starts at a character that is not a digit, nor at the end
    of the text. *)
Lemma dose_match_nondigit (pos : nat) (c : ascii) (s : string) :
  Re.is_digit c = false ->
  Re.rmatch DOSE_PATTERN pos (String c s) [] Re.accept = None.
Proof. intros H; simpl. now rewrite H. Qed.

Lemma dose_match_end (pos : nat) :
  Re.rmatch DOSE_PATTERN pos "" [] Re.accept = None.
Proof. reflexivity. Qed.

(** At [500mg] the pattern matches, with [500] and [mg] as groups. *)
Lemma dose_match_500mg (pos : nat) (s : string) :
  Re.rmatch DOSE_PATTERN pos ("500mg" ++ s) [] Re.accept =
  Some [ (2, (3 + pos, 5 + pos)); (1, (pos, 3 + pos)) ].
Proof.
  unfold DOSE_PATTERN, Re.Plus, Re.Digit, Re.Space.
  cbn [Re.rmatch Re.word append length]. unfold Re.Lit. cbn [Re.rmatch].
  rewrite char_step_yes by reflexivity. cbn [length].
  do 2 (rewrite (star_class_step Re.is_digit) by reflexivity).
  rewrite (star_class_stop Re.is_digit) by reflexivity.
  rewrite char_step_no by reflexivity.
  rewrite (star_class_stop Re.is_digit) by reflexivity.
  rewrite (star_class_stop Re.is_space) by reflexivity.
  do 2 (rewrite char_step_yes by reflexivity).
  reflexivity.
Qed.

Lemma is_digit_lower (c : ascii) :
  Re.is_digit (Str.lower_char c) = Re.is_digit c.
Proof. destruct c as [[] [] [] [] [] [] [] []]; reflexivity. Qed.

Lemma length_lower (s : string) : length (Str.lower s) = length s.
Proof. induction s; simpl; auto. Qed.

(** [re.search] skips a stretch without digits. *)
Lemma search_skip_digit_free (p rest : string) (pos : nat) :
  digit_free p = true ->
  Re.search_from DOSE_PATTERN pos (Str.lower p ++ rest) =
  Re.search_from DOSE_PATTERN (length p + pos) rest.
Proof.
  revert pos; induction p as [|c p IH]; intros pos H; simpl in H;
    cbn [Str.lower append Re.search_from length Nat.add].
  - reflexivity.
  - apply andb_prop in H as [Hc Hp].
    rewrite dose_match_nondigit.
    + rewrite IH by assumption. f_equal. lia.
    + rewrite is_digit_lower. now destruct (Re.is_digit c).
Qed.

Lemma search_500mg (pos : nat) (s : string) :
  Re.search_from DOSE_PATTERN pos ("500mg" ++ s) =
  Some [ (2, (3 + pos, 5 + pos)); (1, (pos, 3 + pos)) ].
Proof.
  change (Re.search_from DOSE_PATTERN pos ("500mg" ++ s))
    with (match Re.rmatch DOSE_PATTERN pos ("500mg" ++ s) [] Re.accept with
          | Some m => Some m
          | None => Re.search_from DOSE_PATTERN (S pos) ("00mg" ++ s)
          end).
  now rewrite dose_match_500mg.
Qed.

(** A text in which [500mg] occurs has a dose. *)
Lemma search_finds_500mg (a b : string) (pos : nat) :
  Re.search_from DOSE_PATTERN pos (a ++ "500mg" ++ b) <> None.
Proof.
  revert pos; induction a as [|c a IH]; intros pos.
  - change ("" ++ "500mg" ++ b) with ("500mg" ++ b).
    rewrite search_500mg. discriminate.
  - change (String c a ++ "500mg" ++ b)
      with (String c (a ++ "500mg" ++ b)).
    cbn [Re.search_from].
    destruct (Re.rmatch DOSE_PATTERN pos (String c (a ++ "500mg" ++ b))
                [] Re.accept); [discriminate | apply IH].
Qed.

End DoseFacts.

(** ** The negation window *)

Section NegationFacts.

(** A text splits before its last [k] characters. *)
Lemma split_suffix (a : string) (k : nat) :
  k <= length a -> exists a0 w, a = a0 ++ w /\ length w = k.
Proof.
  induction a as [|c a IH]; simpl; intros H.
  - exists "", ""; split; auto. simpl; lia.
  - destruct (Nat.eq_dec k (S (length a))) as [->|N].
    + exists "", (String c a); auto.
    + destruct IH as (a0 & w & -> & L); [lia|].
      exists (String c a0), w; auto.
Qed.

Lemma lookback_window_exists (a : string) : exists w, lookback_window w a.
Proof.
  destruct (split_suffix a (Nat.min 50 (length a))) as (a0 & w & E & L);
    [lia|].
  exists w, a0; auto.
Qed.

(** The slice [text_lower[window_start:med_pos]] is the lookback
    window of the text before position [med_pos]. *)
Lemma slice_lookback (a w rest : string) :
  lookback_window w a ->
  let med_pos := Z.of_nat (length a) in
  Str.slice (a ++ rest) (Z.max 0 (med_pos - 50)) med_pos = w.
Proof.
  intros (a0 & -> & L) med_pos; subst med_pos. unfold Str.slice.
  rewrite length_append in L.
  rewrite !length_append.
  set (n0 := length a0) in *. set (nw := length w) in *.
  set (nr := length rest).
  assert (Hlo : (Z.max 0 (Z.of_nat (n0 + nw) - 50) <? 0)%Z = false)
    by (apply Z.ltb_ge; lia).
  assert (Hhi : (Z.of_nat (n0 + nw) <? 0)%Z = false)
    by (apply Z.ltb_ge; lia).
  rewrite Hlo, Hhi.
  replace (Z.to_nat (Z.min (Z.max 0 (Z.of_nat (n0 + nw) - 50))
                           (Z.of_nat (n0 + nw + nr))))
    with n0 by lia.
  replace (Z.to_nat (Z.min (Z.of_nat (n0 + nw)) (Z.of_nat (n0 + nw + nr))
                     - Z.min (Z.max 0 (Z.of_nat (n0 + nw) - 50))
                             (Z.of_nat (n0 + nw + nr))))
    with nw by lia.
  subst n0 nw. rewrite !append_assoc, substring_skip.
  apply substring_prefix.
Qed.

(** [is_negated] looks for the cues in the lookback window of the
    first occurrence. *)
Lemma is_negated_window (text medication a b w : string) :
  first_occurrence (Str.lower medication) (Str.lower text) a b ->
  lookback_window w a ->
  is_negated text medication = any_pattern_in NEGATION_PATTERNS w.
Proof.
  intros F W. unfold is_negated, Str.find.
  rewrite (find_from_first _ _ _ _ 0 F). simpl (0 + length a).
  destruct (Z.eqb_spec (Z.of_nat (length a)) (-1)) as [E|_]; [lia|].
  destruct F as [-> _]. now rewrite (slice_lookback a w).
Qed.

Lemma is_negated_absent (text medication : string) :
  ~ occurs (Str.lower medication) (Str.lower text) ->
  is_negated text medication = false.
Proof.
  intros N. unfold is_negated, Str.find.
  destruct (Str.find_from (Str.lower medication) (Str.lower text) 0)
    as [n|] eqn:F; [|reflexivity].
  destruct (find_from_Some _ _ _ _ F) as (a & b & [E _] & _).
  elim N. now exists a, b.
Qed.

End NegationFacts.

(** * The claims *)

(** ** Extractors that find nothing *)

(** What [extract_frequency] does on any text: it names a category of
    the table one of whose phrases occurs in the lower-cased text, or
    else the lookup of ['daily'] raises. *)
Lemma extract_frequency_outcome (text : string) :
  extract_frequency text = Raise (KeyError "daily") \/
  exists key patterns p,
    extract_frequency text = Ok (Some key) /\
    Dict.get FREQUENCY_PATTERNS key = Some patterns /\
    In p patterns /\ occurs p (Str.lower text).
Proof.
  rewrite extract_frequency_chain; cbv zeta.
  destruct (any_pattern_in four_times_phrases _) eqn:H4;
    [|destruct (any_pattern_in three_times_phrases _) eqn:H3;
      [|destruct (any_pattern_in twice_phrases _) eqn:H2;
        [|destruct (any_pattern_in bedtime_phrases _) eqn:Hb;
          [|destruct (any_pattern_in needed_phrases _) eqn:Hn;
            [|now left]]]]];
    right;
    match goal with
    | H : any_pattern_in ?ps _ = true |- _ =>
        apply any_pattern_in_iff in H; destruct H as (p & I & O);
        eexists _, ps, p;
        split; [reflexivity | split; [reflexivity | split; assumption]]
    end.
Qed.

(** When no phrase of the table occurs, [extract_frequency] raises. *)
Lemma extract_frequency_raises (text : string) :
  (forall key patterns p,
      Dict.get FREQUENCY_PATTERNS key = Some patterns ->
      In p patterns -> ~ occurs p (Str.lower text)) ->
  extract_frequency text = Raise (KeyError "daily").
Proof.
  intros N. destruct (extract_frequency_outcome text)
    as [E | (key & ps & p & _ & G & I & O)]; auto.
  elim (N _ _ _ G I O).
Qed.

(** [extract_route] finds nothing exactly when no phrase of its table
    occurs. *)
Lemma extract_route_None (text : string) :
  extract_route text = None <->
  forall key patterns p,
    In (key, patterns) ROUTE_PATTERNS -> In p patterns ->
    ~ occurs p (Str.lower text).
Proof.
  rewrite extract_route_chain, ROUTE_PATTERNS_items; cbv zeta.
  split.
  - intros H key ps p I. revert H.
    repeat match goal with
           | |- context [any_pattern_in ?l ?t] =>
               let E := fresh "E" in
               destruct (any_pattern_in l t) eqn:E; [discriminate|]
           end.
    intros _ Ip.
    simpl in I.
    repeat match goal with
           | H : _ \/ _ |- _ => destruct H as [H|H]
           | H : (_, _) = (_, _) |- _ => injection H as <- <-
           | H : False |- _ => destruct H
           end;
      match goal with
      | E : any_pattern_in ?l _ = false, Ip : In p ?l |- _ =>
          exact (proj1 (any_pattern_in_false _ _) E p Ip)
      end.
  - intros N.
    repeat match goal with
           | |- context [any_pattern_in ?l ?t] =>
               let E := fresh "E" in
               destruct (any_pattern_in l t) eqn:E;
               [ exfalso; apply any_pattern_in_iff in E;
                 destruct E as (p & Ip & O);
                 refine (N _ l p _ Ip O); simpl; tauto |]
           end.
    reflexivity.
Qed.

(** C1.  The claim is that every extractor answers "not found" rather
    than fail when nothing matches.  [extract_dose] and [extract_route]
    do so on the empty text, but [extract_frequency] raises
    [KeyError('daily')] there, and on no text at all does it answer
    "not found": the last key of [check_order] is missing from
    [FREQUENCY_PATTERNS]. *)
Theorem extract_frequency_not_found_raises :
  extract_dose "" = None /\
  extract_route "" = None /\
  extract_frequency "" = Raise (KeyError "daily") /\
  (forall text, extract_frequency text <> Ok None).
Proof.
  repeat split; try reflexivity.
  intros text H.
  destruct (extract_frequency_outcome text) as [E | (k & _ & _ & E & _)];
    rewrite E in H; discriminate.
Qed.

(** ** The aggregator *)

(** What [parse] returns and stores, in closed form. *)
Lemma parse_closed (text : string) (self : MedicationParser) :
  parse text self =
  match find_medications text with
  | [] => (Ok [], {| medications := [] |})
  | found =>
      match extract_frequency text with
      | Ok f =>
          let meds := map (record_for text f) found in
          (Ok meds, {| medications := meds |})
      | Raise e => (Raise e, self)
      end
  end.
Proof.
  unfold parse. rewrite parse_loop_closed.
  destruct (find_medications text) as [|n found]; [reflexivity|].
  destruct (extract_frequency text); reflexivity.
Qed.

(** C2.  All records of the list that one call of [parse] returns carry
    the dose, frequency and route extracted from the full text, so any
    two of them agree on the three fields. *)
Theorem parse_fields_shared (text : string) (self self' : MedicationParser)
        (meds : list Medication) :
  parse text self = (Ok meds, self') ->
  (forall med, In med meds ->
     dose med = extract_dose text /\
     extract_frequency text = Ok (frequency med) /\
     route med = extract_route text) /\
  (forall med1 med2, In med1 meds -> In med2 meds ->
     dose med1 = dose med2 /\
     frequency med1 = frequency med2 /\
     route med1 = route med2).
Proof.
  intros P.
  assert (A : forall med, In med meds ->
     dose med = extract_dose text /\
     extract_frequency text = Ok (frequency med) /\
     route med = extract_route text).
  { rewrite parse_closed in P.
    destruct (find_medications text) as [|n found].
    - injection P as <- _. intros med [].
    - destruct (extract_frequency text) as [f|e]; [|discriminate].
      injection P as <- _. intros med I.
      change (In med (map (record_for text f) (n :: found))) in I.
      apply in_map_iff in I as (n' & <- & _). simpl; auto. }
  split; [exact A|].
  intros med1 med2 I1 I2.
  destruct (A _ I1) as (D1 & F1 & R1), (A _ I2) as (D2 & F2 & R2).
  repeat split; congruence.
Qed.

Lemma parse_fields_shared_witness :
  let text := "Metformin 500mg and Lisinopril 10mg bid" in
  let meds :=
    [ {| name := "metformin";
         dose := Some {| value := "500"; unit := "mg" |};
         frequency := Some "twice daily"; route := None |};
      {| name := "lisinopril";
         dose := Some {| value := "500"; unit := "mg" |};
         frequency := Some "twice daily"; route := None |} ] in
  parse text __init__ = (Ok meds, {| medications := meds |}) /\
  (forall med1 med2, In med1 meds -> In med2 meds ->
     dose med1 = dose med2 /\
     frequency med1 = frequency med2 /\
     route med1 = route med2).
Proof.
  intros text meds.
  assert (P : parse text __init__ = (Ok meds, {| medications := meds |}))
    by (vm_compute; reflexivity).
  split; [exact P|].
  exact (proj2 (parse_fields_shared text __init__ _ meds P)).
Defined.

(** C3.  [parse("Metformin 500mg PO twice daily")] returns one record:
    metformin, dose 500 mg, twice daily, and no route. *)
Theorem parse_metformin_example (self : MedicationParser) :
  let med :=
    {| name := "metformin";
       dose := Some {| value := "500"; unit := "mg" |};
       frequency := Some "twice daily";
       route := None |} in
  parse "Metformin 500mg PO twice daily" self =
  (Ok [med], {| medications := [med] |}).
Proof. reflexivity. Qed.

(** C8.  The outcome of [parse] does not depend on the parser it is
    called on: a second call with the same text, on the parser the first
    call left behind, has the same outcome, and a list returned by the
    first is returned again by the second. *)
Theorem parse_twice_same (text : string) (self : MedicationParser) :
  let first := parse text self in
  let second := parse text (snd first) in
  fst second = fst first /\
  (forall meds, fst first = Ok meds ->
     second = (Ok meds, {| medications := meds |})).
Proof.
  cbv zeta. rewrite !parse_closed.
  destruct (find_medications text) as [|n found].
  - split; auto. simpl. intros meds E. injection E as <-. reflexivity.
  - destruct (extract_frequency text) as [f|e]; simpl; split; auto.
    + intros meds E. injection E as <-. reflexivity.
    + discriminate.
Qed.

(** C9.  [get_summary] answers "No medications found." on a fresh
    parser, and after a call of [parse] on a text in which no name of
    the vocabulary occurs; that call returns the empty list. *)
Theorem get_summary_no_medications (text : string) (self : MedicationParser) :
  (forall med, In med KNOWN_MEDICATIONS -> ~ occurs med (Str.lower text)) ->
  get_summary __init__ = "No medications found." /\
  fst (parse text self) = Ok [] /\
  get_summary (snd (parse text self)) = "No medications found.".
Proof.
  intros N.
  assert (F : find_medications text = []).
  { rewrite find_medications_filter.
    induction KNOWN_MEDICATIONS as [|med meds IH]; simpl; auto.
    rewrite (proj2 (contains_false_iff med (Str.lower text)))
      by (apply N; simpl; auto).
    apply IH. intros m I. apply N. simpl; auto. }
  rewrite parse_closed, F. repeat split.
Qed.

Lemma get_summary_no_medications_witness :
  (forall med, In med KNOWN_MEDICATIONS ->
     ~ occurs med (Str.lower "Patient reports no complaints.")) /\
  get_summary __init__ = "No medications found." /\
  fst (parse "Patient reports no complaints." __init__) = Ok [] /\
  get_summary (snd (parse "Patient reports no complaints." __init__))
  = "No medications found.".
Proof.
  assert (N : forall med, In med KNOWN_MEDICATIONS ->
     ~ occurs med (Str.lower "Patient reports no complaints.")).
  { intros med I. apply contains_false_iff.
    simpl in I; intuition (subst; vm_compute; reflexivity). }
  split; [exact N|].
  exact (get_summary_no_medications _ __init__ N).
Defined.

(** ** The medication finder *)

(** C7.  [find_medications] on the example returns metformin and
    lisinopril.  In general it returns the names of the vocabulary that
    occur in the lower-cased text, in the order of the vocabulary and
    each at most once; a text that mentions lisinopril first still has
    metformin first in the answer. *)
Theorem find_medications_vocabulary_order (text : string) :
  find_medications "Metformin 500mg and Lisinopril 10mg"
  = ["metformin"; "lisinopril"] /\
  find_medications text
  = filter (fun med => Str.contains med (Str.lower text)) KNOWN_MEDICATIONS /\
  (forall med, In med (find_medications text) <->
               In med KNOWN_MEDICATIONS /\ occurs med (Str.lower text)) /\
  NoDup (find_medications text) /\
  find_medications "Lisinopril 10mg, then metformin and more metformin"
  = ["metformin"; "lisinopril"].
Proof.
  split; [reflexivity|]. split; [apply find_medications_filter|].
  rewrite find_medications_filter. split; [|split; [|reflexivity]].
  - intros med. rewrite filter_In, contains_iff. reflexivity.
  - apply NoDup_filter, KNOWN_MEDICATIONS_NoDup.
Qed.

(** ** The route extractor *)

(** C10.  A text with an [i] directly followed by a [v], each in either
    case and wherever they stand, has the route intravenous. *)
Theorem extract_route_iv_anywhere (a b : string) (c1 c2 : ascii) :
  In c1 ["i"; "I"]%char -> In c2 ["v"; "V"]%char ->
  extract_route (a ++ String c1 (String c2 b)) = Some "intravenous".
Proof.
  intros I1 I2. rewrite extract_route_chain; cbv zeta.
  assert (O : occurs "iv" (Str.lower (a ++ String c1 (String c2 b)))).
  { exists (Str.lower a), (Str.lower b). rewrite lower_append.
    simpl in I1, I2.
    destruct I1 as [<-|[<-|[]]], I2 as [<-|[<-|[]]]; reflexivity. }
  apply contains_iff in O.
  cbn [any_pattern_in]. now rewrite O.
Qed.

Lemma extract_route_iv_anywhere_witness :
  In "i"%char ["i"; "I"]%char /\ In "v"%char ["v"; "V"]%char /\
  extract_route "given" = Some "intravenous".
Proof.
  assert (I1 : In "i"%char ["i"; "I"]%char) by (simpl; auto).
  assert (I2 : In "v"%char ["v"; "V"]%char) by (simpl; auto).
  split; [exact I1|]. split; [exact I2|].
  exact (extract_route_iv_anywhere "g" "en" "i" "v" I1 I2).
Defined.

(** ** The frequency extractor *)

(** C5, as the claim states it, fails: a phrase of an earlier category
    wins over [twice daily]. *)
Lemma extract_frequency_twice_daily_counterexample :
  ~ (forall text,
        occurs "twice daily" text -> occurs "daily" text ->
        extract_frequency text = Ok (Some "twice daily")).
Proof.
  intros H.
  specialize (H "qid, not twice daily").
  assert (O1 : occurs "twice daily" "qid, not twice daily")
    by (exists "qid, not ", ""; reflexivity).
  assert (O2 : occurs "daily" "qid, not twice daily")
    by (exists "qid, not twice ", ""; reflexivity).
  specialize (H O1 O2). vm_compute in H. discriminate.
Qed.

(** C5, amended.  On a text in which [twice daily] occurs,
    [extract_frequency] returns a category and never fails; the category
    is twice daily exactly when no phrase of the two categories checked
    before it occurs in the lower-cased text, and is otherwise one of
    those two; it is never the generic daily. *)
Theorem extract_frequency_twice_daily (text : string) :
  occurs "twice daily" text ->
  (extract_frequency text = Ok (Some "twice daily") <->
   forall p, In p (four_times_phrases ++ three_times_phrases)%list ->
             ~ occurs p (Str.lower text)) /\
  (extract_frequency text = Ok (Some "four times daily") \/
   extract_frequency text = Ok (Some "three times daily") \/
   extract_frequency text = Ok (Some "twice daily")) /\
  extract_frequency text <> Ok (Some "daily").
Proof.
  intros O. apply occurs_lower in O.
  change (Str.lower "twice daily") with "twice daily" in O.
  assert (T : any_pattern_in twice_phrases (Str.lower text) = true).
  { apply any_pattern_in_iff. exists "twice daily"; split; auto.
    simpl; auto. }
  rewrite extract_frequency_chain; cbv zeta. rewrite T.
  destruct (any_pattern_in four_times_phrases _) eqn:H4;
    [|destruct (any_pattern_in three_times_phrases _) eqn:H3].
  - repeat split; auto; try discriminate.
    intros N. apply any_pattern_in_iff in H4 as (p & I & Op).
    elim (N p); auto. apply in_or_app; auto.
  - repeat split; auto; try discriminate.
    intros N. apply any_pattern_in_iff in H3 as (p & I & Op).
    elim (N p); auto. apply in_or_app; auto.
  - repeat split; auto; try discriminate.
    intros _ p I. apply in_app_or in I as [I|I].
    + exact (proj1 (any_pattern_in_false _ _) H4 p I).
    + exact (proj1 (any_pattern_in_false _ _) H3 p I).
Qed.

Lemma extract_frequency_twice_daily_witness :
  let text := "Metformin 500mg PO twice daily" in
  occurs "twice daily" text /\
  (extract_frequency text = Ok (Some "twice daily") <->
   forall p, In p (four_times_phrases ++ three_times_phrases)%list ->
             ~ occurs p (Str.lower text)) /\
  (extract_frequency text = Ok (Some "four times daily") \/
   extract_frequency text = Ok (Some "three times daily") \/
   extract_frequency text = Ok (Some "twice daily")) /\
  extract_frequency text <> Ok (Some "daily").
Proof.
  intros text.
  assert (O : occurs "twice daily" text)
    by (exists "Metformin 500mg PO ", ""; reflexivity).
  split; [exact O|].
  exact (extract_frequency_twice_daily text O).
Defined.

(** ** The dose extractor *)

(** When no digit stands before an occurrence of [500mg] in the text,
    the dose is value 500 and unit mg; and whatever stands before it, a
    text in which [500mg] occurs has a dose. *)
Lemma extract_dose_500mg_digit_free (p s : string) :
  digit_free p = true ->
  extract_dose (p ++ "500mg" ++ s)
  = Some {| value := "500"; unit := "mg" |} /\
  (forall a b, extract_dose (a ++ "500mg" ++ b) <> None).
Proof.
  intros D. split.
  - unfold extract_dose, Re.search.
    rewrite !lower_append.
    change (Str.lower "500mg") with "500mg".
    rewrite search_skip_digit_free by assumption.
    rewrite search_500mg. f_equal.
    unfold Re.group. cbn [Re.mark Nat.eqb].
    rewrite Nat.add_0_r, <- (length_lower p).
    replace (3 + length (Str.lower p) - length (Str.lower p)) with 3 by lia.
    replace (5 + length (Str.lower p) - (3 + length (Str.lower p)))
      with 2 by lia.
    rewrite (Nat.add_comm 3), substring_skip_add, substring_skip.
    f_equal.
    change (substring (length "500" + 0) (length "mg")
              ("500" ++ "mg" ++ Str.lower s) = "mg").
    rewrite substring_skip_add. apply substring_prefix.
  - intros a b. unfold extract_dose, Re.search.
    rewrite !lower_append.
    change (Str.lower "500mg") with "500mg".
    pose proof (search_finds_500mg (Str.lower a) (Str.lower b) 0) as F.
    destruct (Re.search_from DOSE_PATTERN 0 _); [discriminate | congruence].
Qed.

(** ** The negation checker *)

(** With the medication at the very start of the text the window is
    empty and nothing is negated. *)
Lemma is_negated_empty_window (text medication b : string) :
  first_occurrence (Str.lower medication) (Str.lower text) "" b ->
  is_negated text medication = false.
Proof.
  intros F. rewrite (is_negated_window _ _ "" b "" F); [reflexivity|].
  exists ""; auto.
Qed.

(** C6.  [is_negated] answers true exactly when the medication occurs in
    the text, both lower-cased, and one of the negation cues occurs in
    the window of up to 50 characters right before its first occurrence.
    So it answers false when the medication does not occur, and when the
    window is empty. *)
Theorem is_negated_first_occurrence_window (text medication : string) :
  is_negated text medication = true <->
  exists a b w p,
    first_occurrence (Str.lower medication) (Str.lower text) a b /\
    lookback_window w a /\
    In p NEGATION_PATTERNS /\ occurs p w.
Proof.
  split.
  - intros H.
    destruct (Str.find_from (Str.lower medication) (Str.lower text) 0)
      as [n|] eqn:E.
    + destruct (find_from_Some _ _ _ _ E) as (a & b & F & _).
      destruct (lookback_window_exists a) as [w W].
      rewrite (is_negated_window _ _ a b w F W) in H.
      apply any_pattern_in_iff in H as (p & I & O).
      now exists a, b, w, p.
    + rewrite (is_negated_absent _ _ (find_from_None _ _ _ E)) in H.
      discriminate.
  - intros (a & b & w & p & F & W & I & O).
    rewrite (is_negated_window _ _ a b w F W).
    apply any_pattern_in_iff. now exists p.
Qed.

Lemma is_negated_first_occurrence_window_witness :
  is_negated "Allergic to penicillin" "penicillin" = true /\
  exists a b w p,
    first_occurrence (Str.lower "penicillin")
                     (Str.lower "Allergic to penicillin") a b /\
    lookback_window w a /\
    In p NEGATION_PATTERNS /\ occurs p w.
Proof.
  assert (H : is_negated "Allergic to penicillin" "penicillin" = true)
    by reflexivity.
  split; [exact H|].
  exact (proj1 (is_negated_first_occurrence_window _ _) H).
Defined.

(** * Further properties *)

(** ** The matcher against what a pattern matches *)

Section MatcherFacts.

(** Whatever the matcher finds is a word of the pattern followed by
    something the continuation accepts; a pattern without groups leaves
    the marks alone. *)
Lemma rmatch_sound (r : Re.regex) :
  forall pos s m k res,
    Re.rmatch r pos s m k = Some res ->
    exists w s' m',
      s = w ++ s' /\ lang r w /\
      k (pos + length w) s' m' = Some res /\
      (groupfree r = true -> m' = m).
Proof.
  induction r as [|p|r1 IH1 r2 IH2|r1 IH1 r2 IH2|r1 IH1|r1 IH1|n r1 IH1];
    intros pos s m k res H; cbn [Re.rmatch] in H.
  - exists "", s, m. rewrite Nat.add_0_r. repeat split; auto. constructor.
  - destruct s as [|c s]; cbn in H; [discriminate|].
    destruct (p c) eqn:P; [|discriminate].
    exists (String c ""), s, m. cbn [length].
    rewrite Nat.add_1_r. repeat split; auto. now constructor.
  - apply IH1 in H as (w1 & s1 & m1 & -> & L1 & H & G1).
    apply IH2 in H as (w2 & s2 & m2 & -> & L2 & H & G2).
    exists (w1 ++ w2), s2, m2. rewrite append_assoc, length_append.
    rewrite Nat.add_assoc. repeat split; auto.
    + now constructor.
    + cbn. intros G. apply andb_prop in G as [Ga Gb].
      rewrite G2, G1; auto.
  - destruct (Re.rmatch r1 pos s m k) as [x|] eqn:E.
    + injection H as <-.
      apply IH1 in E as (w & s' & m' & -> & L & K & G).
      exists w, s', m'. repeat split; auto.
      * now apply lang_Alt_l.
      * cbn. intros A. apply andb_prop in A as [Ga _]; auto.
    + apply IH2 in H as (w & s' & m' & -> & L & K & G).
      exists w, s', m'. repeat split; auto.
      * now apply lang_Alt_r.
      * cbn. intros A. apply andb_prop in A as [_ Gb]; auto.
  - destruct (Re.rmatch r1 pos s m k) as [x|] eqn:E.
    + injection H as <-.
      apply IH1 in E as (w & s' & m' & -> & L & K & G).
      exists w, s', m'. repeat split; auto. now apply lang_Opt_some.
    + exists "", s, m. rewrite Nat.add_0_r. repeat split; auto.
      constructor.
  - revert H. generalize (length s) as fuel. intros fuel.
    revert pos s m. induction fuel as [|fuel IHf]; intros pos s m H;
      cbn [Re.star_loop] in H.
    + exists "", s, m. rewrite Nat.add_0_r. repeat split; auto.
      constructor.
    + match type of H with
      | match ?b with _ => _ end = _ => destruct b as [x|] eqn:E
      end.
      * injection H as <-.
        apply IH1 in E as (w1 & s1 & m1 & -> & L1 & K & G1).
        destruct (Nat.ltb_spec pos (pos + length w1)) as [Lt|_];
          [|discriminate].
        apply IHf in K as (w2 & s2 & m2 & -> & L2 & K & G2).
        exists (w1 ++ w2), s2, m2. rewrite append_assoc, length_append.
        rewrite Nat.add_assoc. repeat split; auto.
        -- apply lang_Star_cons; auto. intros ->. cbn in Lt. lia.
        -- cbn. intros G. rewrite G2, G1; auto.
      * exists "", s, m. rewrite Nat.add_0_r. repeat split; auto.
        constructor.
  - apply IH1 in H as (w & s' & m' & -> & L & K & _).
    exists w, s', ((n, (pos, pos + length w)) :: m').
    repeat split; auto; [now constructor | discriminate].
Qed.

(** When a word of the pattern stands at the head of the text and the
    continuation accepts what follows it, the matcher finds a match
    (this one or one it tries before). *)
Lemma rmatch_complete_star (r : Re.regex) (w : string) :
  lang r w ->
  (forall pos s' k,
      (forall m', k (pos + length w) s' m' <> None) ->
      forall m, Re.rmatch r pos (w ++ s') m k <> None) /\
  (forall r1, r = Re.Star r1 -> star_takes r1 w).
Proof.
  induction 1 as [|p c P|r1 r2 w1 w2 L1 [IH1 _] L2 [IH2 _]
                  |r1 r2 w L [IH _]|r1 r2 w L [IH _]
                  |r|r w L [IH _]
                  |r|r w1 w2 L1 [IH1 _] N L2 [_ IH2]
                  |n r w L [IH _]].
  - split; [intros pos s' k K m; cbn [Re.rmatch] | discriminate].
    rewrite <- (Nat.add_0_r pos). apply K.
  - split; [intros pos s' k K m; cbn [Re.rmatch] | discriminate].
    cbn. rewrite P. rewrite <- Nat.add_1_r. apply K.
  - split; [intros pos s' k K m; cbn [Re.rmatch] | discriminate].
    rewrite append_assoc. apply IH1. intros m'. apply IH2.
    intros m''. rewrite <- Nat.add_assoc, <- length_append. apply K.
  - split; [intros pos s' k K m; cbn [Re.rmatch] | discriminate].
    destruct (Re.rmatch r1 pos (w ++ s') m k) eqn:E; [discriminate|].
    elim (IH _ _ _ K _ E).
  - split; [intros pos s' k K m; cbn [Re.rmatch] | discriminate].
    destruct (Re.rmatch r1 pos (w ++ s') m k) eqn:E; [discriminate|].
    now apply IH.
  - split; [intros pos s' k K m; cbn [Re.rmatch] | discriminate].
    destruct (Re.rmatch r pos ("" ++ s') m k); [discriminate|].
    rewrite <- (Nat.add_0_r pos). apply K.
  - split; [intros pos s' k K m; cbn [Re.rmatch] | discriminate].
    destruct (Re.rmatch r pos (w ++ s') m k) eqn:E; [discriminate|].
    elim (IH _ _ _ K _ E).
  - assert (T : star_takes r "").
    { intros fuel pos s' k F K m.
      destruct fuel as [|fuel]; cbn [Re.star_loop].
      - rewrite <- (Nat.add_0_r pos). apply K.
      - match goal with
        | |- match ?b with _ => _ end <> _ => destruct b; [discriminate|]
        end.
        rewrite <- (Nat.add_0_r pos). apply K. }
    split; [intros pos s' k K m; cbn [Re.rmatch]
           | intros r0 E; injection E as <-; exact T].
    apply (T _ pos s' k (le_n _) K).
  - assert (T : star_takes r (w1 ++ w2)).
    { intros fuel pos s' k F K m.
      assert (N1 : 0 < length w1) by (destruct w1; [congruence | cbn; lia]).
      rewrite !length_append in F.
      destruct fuel as [|fuel]; [lia|]. cbn [Re.star_loop].
      match goal with
      | |- match ?b with _ => _ end <> _ =>
          destruct b eqn:B; [discriminate|]
      end.
      exfalso. rewrite append_assoc in B. revert B. apply IH1.
      intros m'.
      destruct (Nat.ltb_spec pos (pos + length w1)) as [_|Ge]; [|lia].
      apply (IH2 r eq_refl).
      - rewrite length_append. lia.
      - intros m''. rewrite <- Nat.add_assoc, <- length_append. apply K. }
    split; [intros pos s' k K m; cbn [Re.rmatch]
           | intros r0 E; injection E as <-; exact T].
    apply (T _ pos s' k (le_n _) K).
  - split; [intros pos s' k K m; cbn [Re.rmatch] | discriminate].
    apply IH. intros m'. apply K.
Qed.

Lemma rmatch_complete (r : Re.regex) (w : string) (pos : nat) (s' : string)
      (k : Re.cont) (m : Re.marks) :
  lang r w ->
  (forall m', k (pos + length w) s' m' <> None) ->
  Re.rmatch r pos (w ++ s') m k <> None.
Proof.
  intros L K. now apply (proj1 (rmatch_complete_star r w L)).
Qed.

End MatcherFacts.

(** ** The dose pattern against its reading *)

Section DosePatternFacts.

Lemma rmatch_Seq (r1 r2 : Re.regex) (pos : nat) (s : string)
      (m : Re.marks) (k : Re.cont) :
  Re.rmatch (Re.Seq r1 r2) pos s m k =
  Re.rmatch r1 pos s m (fun pos' s' m' => Re.rmatch r2 pos' s' m' k).
Proof. reflexivity. Qed.

Lemma rmatch_Group (n : nat) (r : Re.regex) (pos : nat) (s : string)
      (m : Re.marks) (k : Re.cont) :
  Re.rmatch (Re.Group n r) pos s m k =
  Re.rmatch r pos s m (fun pos' s' m' => k pos' s' ((n, (pos, pos')) :: m')).
Proof. reflexivity. Qed.

Lemma DOSE_PATTERN_groups :
  DOSE_PATTERN =
  Re.Seq (Re.Group 1 dose_number)
    (Re.Seq (Re.Star Re.Space) (Re.Group 2 dose_unit)).
Proof. reflexivity. Qed.

Lemma lang_Seq_inv (r1 r2 : Re.regex) (w : string) :
  lang (Re.Seq r1 r2) w ->
  exists w1 w2, w = w1 ++ w2 /\ lang r1 w1 /\ lang r2 w2.
Proof. inversion 1; subst; eauto. Qed.

Lemma lang_Alt_inv (r1 r2 : Re.regex) (w : string) :
  lang (Re.Alt r1 r2) w -> lang r1 w \/ lang r2 w.
Proof. inversion 1; subst; auto. Qed.

Lemma lang_Opt_inv (r : Re.regex) (w : string) :
  lang (Re.Opt r) w -> w = "" \/ lang r w.
Proof. inversion 1; subst; auto. Qed.

(** A repetition of a class matches the words over the class. *)
Lemma lang_star_class (p : ascii -> bool) (w : string) :
  lang (Re.Star (Re.Chr p)) w <-> all_in p w = true.
Proof.
  split.
  - intros L. remember (Re.Star (Re.Chr p)) as r eqn:E.
    induction L as [| | | | | | | |r w1 w2 L1 _ N L2 IH|]; try discriminate.
    + reflexivity.
    + injection E as ->. inversion L1; subst. cbn.
      rewrite H0. now apply IH.
  - induction w as [|c w IH]; cbn; intros H.
    + constructor.
    + apply andb_prop in H as [Hc Hw].
      change (String c w) with (String c "" ++ w).
      apply lang_Star_cons; [now constructor | discriminate | auto].
Qed.

(** A literal character and a literal word match themselves only. *)
Lemma lang_Lit (c : ascii) (w : string) :
  lang (Re.Lit c) w <-> w = String c "".
Proof.
  unfold Re.Lit. split.
  - inversion 1 as [|p c' P| | | | | | | |]; subst.
    apply Ascii.eqb_eq in P as ->. reflexivity.
  - intros ->. constructor. apply Ascii.eqb_refl.
Qed.

Lemma lang_word (u w : string) : lang (Re.word u) w <-> w = u.
Proof.
  revert w; induction u as [|c u IH]; intros w; cbn [Re.word]; split.
  - inversion 1; reflexivity.
  - intros ->. constructor.
  - inversion 1 as [| |r1 r2 w1 w2 L1 L2| | | | | | |]; subst.
    apply IH in L2 as ->. apply lang_Lit in L1 as ->. reflexivity.
  - intros ->. change (String c u) with (String c "" ++ u).
    constructor; [now apply lang_Lit | now apply IH].
Qed.

Lemma lang_dose_number (w : string) : lang dose_number w <-> number_like w.
Proof.
  unfold dose_number, Re.Plus, Re.Digit, number_like. split.
  - intros L.
    apply lang_Seq_inv in L as (w1 & w2 & -> & L1 & L2).
    apply lang_Seq_inv in L1 as (wa & wb & -> & La & Lb).
    apply lang_Seq_inv in L2 as (wc & wd & -> & Lc & Ld).
    inversion La as [|p c P| | | | | | | |]; subst.
    apply lang_star_class in Lb, Ld.
    exists (String c wb), wc, wd. repeat split.
    + discriminate.
    + cbn. now rewrite P.
    + apply lang_Opt_inv in Lc as [->|L]; auto.
      apply lang_Lit in L. auto.
    + assumption.
  - intros (d1 & dt & d2 & -> & N & D1 & T & D2).
    destruct d1 as [|c d1]; [congruence|]. cbn in D1.
    apply andb_prop in D1 as [Dc D1].
    constructor; [|constructor].
    + change (String c d1) with (String c "" ++ d1).
      constructor; [now constructor | now apply lang_star_class].
    + destruct T as [->| ->]; [constructor|].
      apply lang_Opt_some. now apply lang_Lit.
    + now apply lang_star_class.
Qed.

Lemma lang_dose_unit (w : string) : lang dose_unit w <-> In w dose_units.
Proof.
  unfold dose_unit, dose_units. split.
  - intros L.
    apply lang_Alt_inv in L as [L|L]; [apply lang_word in L as ->; cbn; auto|].
    apply lang_Alt_inv in L as [L|L]; [apply lang_word in L as ->; cbn; auto|].
    apply lang_Alt_inv in L as [L|L]; [apply lang_word in L as ->; cbn; auto|].
    apply lang_Alt_inv in L as [L|L];
      [apply lang_word in L as ->; cbn; auto 10|].
    apply lang_Seq_inv in L as (w1 & w2 & -> & L1 & L2).
    apply lang_word in L1 as ->.
    apply lang_Opt_inv in L2 as [->|L2].
    + cbn; auto 10.
    + apply lang_Lit in L2 as ->. cbn; auto 10.
  - cbn [In]. intros H.
    repeat match goal with
           | H : _ \/ _ |- _ => destruct H as [H|H]
           end; try contradiction; subst.
    + apply lang_Alt_l. now apply lang_word.
    + apply lang_Alt_r, lang_Alt_l. now apply lang_word.
    + do 2 apply lang_Alt_r. apply lang_Alt_l. now apply lang_word.
    + do 3 apply lang_Alt_r. apply lang_Alt_l. now apply lang_word.
    + do 4 apply lang_Alt_r. change "unit" with ("unit" ++ "").
      constructor; [now apply lang_word | constructor].
    + do 4 apply lang_Alt_r. change "units" with ("unit" ++ "s").
      constructor; [now apply lang_word |].
      apply lang_Opt_some. now apply lang_Lit.
Qed.

(** A match of the dose pattern at index [pos]: a number, white space
    and a unit stand there, and the two groups mark the number and the
    unit. *)
Lemma dose_match_sound (pos : nat) (s : string) (res : Re.marks) :
  Re.rmatch DOSE_PATTERN pos s [] Re.accept = Some res ->
  exists v ws u b,
    s = v ++ ws ++ u ++ b /\ dose_like v ws u /\
    res = [ (2, (pos + length v + length ws,
                 pos + length v + length ws + length u));
            (1, (pos, pos + length v)) ].
Proof.
  intros H. rewrite DOSE_PATTERN_groups, rmatch_Seq, rmatch_Group in H.
  apply rmatch_sound in H as (v & s1 & m1 & -> & Lv & H & G1).
  rewrite (G1 eq_refl) in H. cbv beta in H. rewrite rmatch_Seq in H.
  apply rmatch_sound in H as (ws & s2 & m2 & -> & Lw & H & G2).
  rewrite (G2 eq_refl) in H. cbv beta in H. rewrite rmatch_Group in H.
  apply rmatch_sound in H as (u & b & m3 & -> & Lu & H & G3).
  rewrite (G3 eq_refl) in H. injection H as <-.
  exists v, ws, u, b. repeat split; auto.
  - now apply lang_dose_number.
  - now apply lang_star_class.
  - now apply lang_dose_unit.
Qed.

Lemma dose_match_complete (pos : nat) (v ws u b : string) :
  dose_like v ws u ->
  Re.rmatch DOSE_PATTERN pos (v ++ ws ++ u ++ b) [] Re.accept <> None.
Proof.
  intros (Lv & Lw & Lu).
  rewrite DOSE_PATTERN_groups, rmatch_Seq, rmatch_Group.
  apply rmatch_complete; [now apply lang_dose_number|].
  intros m1. rewrite rmatch_Seq.
  apply rmatch_complete; [now apply lang_star_class|].
  intros m2. rewrite rmatch_Group.
  apply rmatch_complete; [now apply lang_dose_unit|].
  discriminate.
Qed.

(** [re.search] returns the match at the first index that has one. *)
Lemma search_from_sound (r : Re.regex) (s : string) :
  forall pos res,
    Re.search_from r pos s = Some res ->
    exists a s',
      s = a ++ s' /\
      Re.rmatch r (pos + length a) s' [] Re.accept = Some res /\
      forall a1 s1,
        s = a1 ++ s1 -> length a1 < length a ->
        Re.rmatch r (pos + length a1) s1 [] Re.accept = None.
Proof.
  induction s as [|c s IH]; intros pos res H; cbn [Re.search_from] in H.
  - destruct (Re.rmatch r pos "" [] Re.accept) as [x|] eqn:E;
      [|discriminate].
    injection H as <-. exists "", "". rewrite Nat.add_0_r.
    repeat split; auto. cbn. intros; lia.
  - destruct (Re.rmatch r pos (String c s) [] Re.accept) as [x|] eqn:E.
    + injection H as <-. exists "", (String c s). rewrite Nat.add_0_r.
      repeat split; auto. cbn. intros; lia.
    + apply IH in H as (a & s' & -> & M & F).
      exists (String c a), s'. cbn [length].
      rewrite Nat.add_succ_r. repeat split; auto.
      intros [|c1 a1] s1 E1 L1; cbn in E1.
      * subst s1. now rewrite Nat.add_0_r.
      * injection E1 as _ E1. cbn [length] in L1 |- *.
        rewrite Nat.add_succ_r. apply F; auto. lia.
Qed.

Lemma search_from_complete (r : Re.regex) (a s' : string) :
  forall pos,
    Re.rmatch r (pos + length a) s' [] Re.accept <> None ->
    Re.search_from r pos (a ++ s') <> None.
Proof.
  induction a as [|c a IH]; intros pos H.
  - cbn [append length] in *. rewrite Nat.add_0_r in H.
    destruct s'; cbn [Re.search_from];
      destruct (Re.rmatch r pos _ [] Re.accept); congruence.
  - change (String c a ++ s') with (String c (a ++ s')).
    cbn [Re.search_from].
    destruct (Re.rmatch r pos (String c (a ++ s')) [] Re.accept);
      [discriminate|].
    apply IH. cbn [length] in H. now rewrite Nat.add_succ_r in H.
Qed.

End DosePatternFacts.

(** ** The dose extractor, in full *)

Lemma substring_middle (x y z : string) :
  substring (length x) (length y) (x ++ y ++ z) = y.
Proof. rewrite substring_skip. apply substring_prefix. Qed.

(** What [extract_dose] returns is read off the first place of the
    lower-cased text where the pattern matches. *)
Lemma extract_dose_Some_inv (text : string) (d : Dose) :
  extract_dose text = Some d ->
  exists a ws b,
    Str.lower text = a ++ value d ++ ws ++ unit d ++ b /\
    dose_like (value d) ws (unit d) /\
    forall a1 s1,
      Str.lower text = a1 ++ s1 -> length a1 < length a ->
      Re.rmatch DOSE_PATTERN (length a1) s1 [] Re.accept = None.
Proof.
  unfold extract_dose, Re.search. intros H.
  destruct (Re.search_from DOSE_PATTERN 0 (Str.lower text)) as [res|] eqn:S;
    [|discriminate].
  injection H as <-. cbn [value unit].
  apply search_from_sound in S as (a & s' & E & M & F).
  apply dose_match_sound in M as (v & ws & u & b & -> & D & ->).
  rewrite E. unfold Re.group. cbn [Re.mark Nat.eqb Nat.add].
  replace (length a + length v - length a) with (length v) by lia.
  replace (length a + length v + length ws + length u
           - (length a + length v + length ws))
    with (length u) by lia.
  rewrite substring_middle.
  replace (length a + length v + length ws) with (length (a ++ v ++ ws))
    by (rewrite !length_append; lia).
  replace (a ++ v ++ ws ++ u ++ b) with ((a ++ v ++ ws) ++ u ++ b)
    by (now rewrite !append_assoc).
  rewrite substring_middle. rewrite !append_assoc.
  exists a, ws, b. split; [reflexivity|]. split; [exact D|].
  intros a1 s1 E1 L1. apply (F a1 s1); [now rewrite E | assumption].
Qed.

(** The same, with the places further left read as numbers and units
    rather than as matches. *)
Lemma extract_dose_Some_leftmost (text : string) (d : Dose) :
  extract_dose text = Some d ->
  exists a ws b,
    Str.lower text = a ++ value d ++ ws ++ unit d ++ b /\
    dose_like (value d) ws (unit d) /\
    forall a' v' ws' u' b',
      Str.lower text = a' ++ v' ++ ws' ++ u' ++ b' ->
      dose_like v' ws' u' -> length a <= length a'.
Proof.
  intros H. apply extract_dose_Some_inv in H as (a & ws & b & E & D & F).
  exists a, ws, b. split; [exact E|]. split; [exact D|].
  intros a' v' ws' u' b' E' D'.
  destruct (Nat.le_gt_cases (length a) (length a')) as [|Lt]; auto.
  elim (dose_match_complete (length a') v' ws' u' b' D').
  now apply F.
Qed.

(** [re.search] passes over a stretch in which no match starts. *)
Lemma search_from_skip (r : Re.regex) (a s' : string) :
  forall pos,
    (forall a1 s1,
        a ++ s' = a1 ++ s1 -> length a1 < length a ->
        Re.rmatch r (pos + length a1) s1 [] Re.accept = None) ->
    Re.search_from r pos (a ++ s') = Re.search_from r (pos + length a) s'.
Proof.
  induction a as [|c a IH]; intros pos F.
  - cbn [append length]. now rewrite Nat.add_0_r.
  - change (String c a ++ s') with (String c (a ++ s')).
    cbn [Re.search_from].
    assert (F0 : Re.rmatch r pos (String c (a ++ s')) [] Re.accept = None).
    { rewrite <- (Nat.add_0_r pos).
      apply (F "" (String c (a ++ s')) eq_refl). cbn; lia. }
    rewrite F0. cbn [length]. rewrite Nat.add_succ_r. apply (IH (S pos)).
    intros a1 s1 E L.
    specialize (F (String c a1) s1). cbn [length append] in F.
    rewrite Nat.add_succ_r in F. apply F; [now rewrite E | lia].
Qed.

(** The groups of the match at [500mg]. *)
Lemma dose_of_500mg (lp ls : string) :
  let text_lower := lp ++ "500mg" ++ ls in
  let m := [ (2, (3 + (0 + length lp), 5 + (0 + length lp)));
             (1, (0 + length lp, 3 + (0 + length lp))) ] in
  {| value := Re.group text_lower m 1; unit := Re.group text_lower m 2 |}
  = {| value := "500"; unit := "mg" |}.
Proof.
  cbv zeta. unfold Re.group. cbn [Re.mark Nat.eqb Nat.add].
  replace (S (S (S (length lp))) - length lp) with 3 by lia.
  replace (S (S (S (S (S (length lp))))) - S (S (S (length lp))))
    with 2 by lia.
  rewrite substring_skip.
  replace (S (S (S (length lp)))) with (length lp + 3) by lia.
  rewrite substring_skip_add. f_equal.
  change (substring (length "500" + 0) (length "mg")
            ("500" ++ "mg" ++ ls) = "mg").
  rewrite substring_skip_add. apply substring_prefix.
Qed.

(** A prefix that [no_dose_starts] accepts has no number and unit
    starting in it. *)
Lemma no_dose_starts_spec (p rest : string) :
  no_dose_starts p rest = true ->
  forall a v ws u b,
    p ++ rest = a ++ v ++ ws ++ u ++ b -> dose_like v ws u ->
    length p <= length a.
Proof.
  induction p as [|c p IH]; intros N a v ws u b E D; cbn [length].
  - lia.
  - cbn [no_dose_starts] in N.
    destruct (Re.rmatch DOSE_PATTERN 0 (String c p ++ rest) [] Re.accept)
      as [m|] eqn:M; [discriminate|].
    destruct a as [|c' a].
    + exfalso. cbn [append] in E, M. rewrite E in M.
      exact (dose_match_complete 0 v ws u b D M).
    + cbn [append] in E. injection E as _ E. cbn [length].
      apply le_n_S. now apply (IH N a v ws u b).
Qed.

(** C4, as the claim states it, fails: an earlier dose in the text is
    the one returned. *)
Lemma extract_dose_500mg_counterexample :
  ~ (forall text,
        occurs "500mg" text ->
        extract_dose text = Some {| value := "500"; unit := "mg" |}).
Proof.
  intros H.
  specialize (H "Lisinopril 10mg and Metformin 500mg").
  assert (O : occurs "500mg" "Lisinopril 10mg and Metformin 500mg")
    by (exists "Lisinopril 10mg and Metformin ", ""; reflexivity).
  specialize (H O). vm_compute in H. discriminate.
Qed.

(** C4, amended.  A text in which [500mg] occurs always has a dose, and
    the dose returned is the first dose-like match: the leftmost place
    of the lower-cased text where a number, white space or none, and a
    unit follow one another.  It is value 500 and unit mg whenever no
    such number and unit start in front of that [500mg]. *)
Theorem extract_dose_500mg_first_match (p s : string) :
  let text := p ++ "500mg" ++ s in
  (exists d a ws b,
      extract_dose text = Some d /\
      Str.lower text = a ++ value d ++ ws ++ unit d ++ b /\
      dose_like (value d) ws (unit d) /\
      forall a' v' ws' u' b',
        Str.lower text = a' ++ v' ++ ws' ++ u' ++ b' ->
        dose_like v' ws' u' -> length a <= length a') /\
  ((forall a v ws u b,
       Str.lower text = a ++ v ++ ws ++ u ++ b -> dose_like v ws u ->
       length p <= length a) ->
   extract_dose text = Some {| value := "500"; unit := "mg" |}).
Proof.
  cbv zeta. split.
  - destruct (extract_dose (p ++ "500mg" ++ s)) as [d|] eqn:E.
    + destruct (extract_dose_Some_leftmost _ _ E) as (a & ws & b & L & D & F).
      now exists d, a, ws, b.
    + exfalso. revert E. unfold extract_dose, Re.search.
      rewrite !lower_append. change (Str.lower "500mg") with "500mg".
      pose proof (search_finds_500mg (Str.lower p) (Str.lower s) 0) as F.
      destruct (Re.search_from DOSE_PATTERN 0 _); [discriminate | congruence].
  - intros H. unfold extract_dose, Re.search.
    rewrite !lower_append in *. change (Str.lower "500mg") with "500mg" in *.
    rewrite search_from_skip.
    + rewrite search_500mg. f_equal. apply dose_of_500mg.
    + intros a1 s1 E L.
      destruct (Re.rmatch DOSE_PATTERN (0 + length a1) s1 [] Re.accept)
        as [m|] eqn:M; [|reflexivity].
      exfalso.
      apply dose_match_sound in M as (v & ws & u & b & -> & D & _).
      specialize (H a1 v ws u b E D).
      rewrite length_lower in L. lia.
Qed.

Lemma extract_dose_500mg_first_match_witness :
  let p := "Patient is 55 y/o, Type 2 Diabetes. Metformin " in
  let s := " PO twice daily" in
  (forall a v ws u b,
      Str.lower (p ++ "500mg" ++ s) = a ++ v ++ ws ++ u ++ b ->
      dose_like v ws u -> length p <= length a) /\
  extract_dose (p ++ "500mg" ++ s) = Some {| value := "500"; unit := "mg" |}.
Proof.
  intros p s.
  assert (N : no_dose_starts (Str.lower p) (Str.lower ("500mg" ++ s)) = true)
    by (vm_compute; reflexivity).
  assert (H : forall a v ws u b,
             Str.lower (p ++ "500mg" ++ s) = a ++ v ++ ws ++ u ++ b ->
             dose_like v ws u -> length p <= length a)
    by exact (no_dose_starts_spec _ _ N).
  split; [exact H|].
  exact (proj2 (extract_dose_500mg_first_match p s) H).
Defined.

(** X1.  A dose that [extract_dose] returns is well formed and stands in
    the text: its value is a number (digits, possibly a dot and more
    digits), its unit one of mg, mcg, g, ml, unit, units, and in the
    lower-cased text the value, white space or none, and the unit follow
    one another; no number-and-unit of this form starts further left. *)
Theorem extract_dose_found_shape (text : string) (d : Dose) :
  extract_dose text = Some d ->
  exists a ws b,
    Str.lower text = a ++ value d ++ ws ++ unit d ++ b /\
    dose_like (value d) ws (unit d) /\
    forall a' v' ws' u' b',
      Str.lower text = a' ++ v' ++ ws' ++ u' ++ b' ->
      dose_like v' ws' u' -> length a <= length a'.
Proof.
  intros H. apply extract_dose_Some_inv in H as (a & ws & b & E & D & F).
  exists a, ws, b. split; [exact E|]. split; [exact D|].
  intros a' v' ws' u' b' E' D'.
  destruct (Nat.le_gt_cases (length a) (length a')) as [|Lt]; auto.
  elim (dose_match_complete (length a') v' ws' u' b' D').
  now apply F.
Qed.

Lemma extract_dose_found_shape_witness :
  let text := "Insulin 12.5 Units at bedtime" in
  let d := {| value := "12.5"; unit := "units" |} in
  extract_dose text = Some d /\
  exists a ws b,
    Str.lower text = a ++ value d ++ ws ++ unit d ++ b /\
    dose_like (value d) ws (unit d) /\
    forall a' v' ws' u' b',
      Str.lower text = a' ++ v' ++ ws' ++ u' ++ b' ->
      dose_like v' ws' u' -> length a <= length a'.
Proof.
  intros text d.
  assert (H : extract_dose text = Some d) by reflexivity.
  split; [exact H|].
  exact (extract_dose_found_shape text d H).
Defined.

(** X2.  [extract_dose] finds nothing exactly when nowhere in the
    lower-cased text a number is followed, after white space or none, by
    a unit. *)
Theorem extract_dose_None_iff (text : string) :
  extract_dose text = None <->
  forall a v ws u b,
    Str.lower text = a ++ v ++ ws ++ u ++ b -> ~ dose_like v ws u.
Proof.
  split.
  - intros H a v ws u b E D. revert H. unfold extract_dose, Re.search.
    pose proof (search_from_complete DOSE_PATTERN a (v ++ ws ++ u ++ b) 0
                  (dose_match_complete _ v ws u b D)) as S.
    rewrite E.
    destruct (Re.search_from DOSE_PATTERN 0 _); [discriminate | congruence].
  - intros N. destruct (extract_dose text) as [d|] eqn:H; auto.
    apply extract_dose_Some_inv in H as (a & ws & b & E & D & _).
    elim (N _ _ _ _ _ E D).
Qed.

Lemma extract_dose_None_iff_witness :
  extract_dose "Take 2 tablets by mouth" = None /\
  forall a v ws u b,
    Str.lower "Take 2 tablets by mouth" = a ++ v ++ ws ++ u ++ b ->
    ~ dose_like v ws u.
Proof.
  assert (H : extract_dose "Take 2 tablets by mouth" = None) by reflexivity.
  split; [exact H|].
  exact (proj1 (extract_dose_None_iff _) H).
Defined.

(** ** Priority in the frequency and route extractors *)

(** The loop of [extract_frequency] returns the first key of its list
    that has a phrase in the text; the keys before it are in the table
    and have none. *)
Lemma frequency_loop_first (keys : list string) (t c : string) :
  frequency_loop keys t = Ok (Some c) ->
  exists before after patterns,
    keys = (before ++ c :: after)%list /\
    Dict.get FREQUENCY_PATTERNS c = Some patterns /\
    any_pattern_in patterns t = true /\
    forall c', In c' before ->
      exists ps, Dict.get FREQUENCY_PATTERNS c' = Some ps /\
                 any_pattern_in ps t = false.
Proof.
  induction keys as [|key keys IH]; cbn [frequency_loop]; [discriminate|].
  unfold Dict.getitem.
  destruct (Dict.get FREQUENCY_PATTERNS key) as [ps|] eqn:G;
    cbn [bind]; [|discriminate].
  destruct (any_pattern_in ps t) eqn:A.
  - intros H. injection H as <-.
    exists [], keys, ps. repeat split; auto. intros c' [].
  - intros H. apply IH in H as (before & after & patterns & -> & G' & A' & B).
    exists (key :: before), after, patterns. repeat split; auto.
    intros c' [<-|I]; eauto.
Qed.

(** The entries of the frequency table. *)
Lemma FREQUENCY_PATTERNS_get (key : string) (patterns : list string) :
  Dict.get FREQUENCY_PATTERNS key = Some patterns ->
  In patterns [ twice_phrases; three_times_phrases; four_times_phrases;
                needed_phrases; bedtime_phrases ].
Proof.
  change FREQUENCY_PATTERNS with
    [ ("twice daily", twice_phrases);
      ("three times daily", three_times_phrases);
      ("four times daily", four_times_phrases);
      ("as needed", needed_phrases);
      ("at bedtime", bedtime_phrases) ].
  cbn [Dict.get].
  repeat match goal with
         | |- context [String.eqb ?a key] => destruct (String.eqb a key)
         end;
    intros H; try discriminate; injection H as <-; cbn; auto 10.
Qed.

(** When [extract_frequency] fails, no phrase of the table occurs. *)
Lemma extract_frequency_raises_inv (text : string) :
  extract_frequency text = Raise (KeyError "daily") ->
  forall key patterns p,
    Dict.get FREQUENCY_PATTERNS key = Some patterns ->
    In p patterns -> ~ occurs p (Str.lower text).
Proof.
  rewrite extract_frequency_chain; cbv zeta. intros H key ps p G I.
  apply FREQUENCY_PATTERNS_get in G.
  revert H.
  destruct (any_pattern_in four_times_phrases _) eqn:H4; [discriminate|].
  destruct (any_pattern_in three_times_phrases _) eqn:H3; [discriminate|].
  destruct (any_pattern_in twice_phrases _) eqn:H2; [discriminate|].
  destruct (any_pattern_in bedtime_phrases _) eqn:Hb; [discriminate|].
  destruct (any_pattern_in needed_phrases _) eqn:Hn; [discriminate|].
  intros _. cbn [In] in G.
  destruct G as [<-|[<-|[<-|[<-|[<-|[]]]]]];
    match goal with
    | A : any_pattern_in ?l _ = false, Ip : In p ?l |- _ =>
        exact (proj1 (any_pattern_in_false _ _) A p Ip)
    end.
Qed.

(** X3.  [extract_frequency] fails exactly when no surface phrase of the
    frequency table occurs in the lower-cased text, and the only failure
    it has is the missing key ['daily']. *)
Theorem extract_frequency_raises_iff (text : string) :
  (extract_frequency text = Raise (KeyError "daily") <->
   forall key patterns p,
     Dict.get FREQUENCY_PATTERNS key = Some patterns ->
     In p patterns -> ~ occurs p (Str.lower text)) /\
  (forall e, extract_frequency text = Raise e -> e = KeyError "daily").
Proof.
  split; [split|].
  - apply extract_frequency_raises_inv.
  - apply extract_frequency_raises.
  - intros e H.
    destruct (extract_frequency_outcome text) as [E|(k & _ & _ & E & _)];
      rewrite E in H; [now injection H as <- | discriminate].
Qed.

Lemma extract_frequency_raises_iff_witness :
  extract_frequency "Lisinopril 10mg oral daily" = Raise (KeyError "daily") /\
  forall key patterns p,
    Dict.get FREQUENCY_PATTERNS key = Some patterns ->
    In p patterns -> ~ occurs p (Str.lower "Lisinopril 10mg oral daily").
Proof.
  assert (H : extract_frequency "Lisinopril 10mg oral daily"
              = Raise (KeyError "daily")) by reflexivity.
  split; [exact H|].
  exact (proj1 (proj1 (extract_frequency_raises_iff _)) H).
Defined.

(** X4.  A category that [extract_frequency] returns is the first key of
    [check_order] with a surface phrase in the lower-cased text: one of
    its phrases occurs, and no phrase of a key checked before it does. *)
Theorem extract_frequency_first_in_order (text c : string) :
  extract_frequency text = Ok (Some c) ->
  exists before after patterns,
    check_order = (before ++ c :: after)%list /\
    Dict.get FREQUENCY_PATTERNS c = Some patterns /\
    (exists p, In p patterns /\ occurs p (Str.lower text)) /\
    forall c' ps p,
      In c' before -> Dict.get FREQUENCY_PATTERNS c' = Some ps ->
      In p ps -> ~ occurs p (Str.lower text).
Proof.
  unfold extract_frequency. intros H.
  apply frequency_loop_first in H as (before & after & ps & E & G & A & B).
  exists before, after, ps. repeat split; auto.
  - now apply any_pattern_in_iff.
  - intros c' ps' p I G' Ip.
    destruct (B c' I) as (ps'' & G'' & A'').
    rewrite G' in G''. injection G'' as <-.
    now apply (proj1 (any_pattern_in_false ps' _) A'').
Qed.

Lemma extract_frequency_first_in_order_witness :
  let text := "Ibuprofen 400mg TID as needed at night" in
  extract_frequency text = Ok (Some "three times daily") /\
  exists before after patterns,
    check_order = (before ++ "three times daily" :: after)%list /\
    Dict.get FREQUENCY_PATTERNS "three times daily" = Some patterns /\
    (exists p, In p patterns /\ occurs p (Str.lower text)) /\
    forall c' ps p,
      In c' before -> Dict.get FREQUENCY_PATTERNS c' = Some ps ->
      In p ps -> ~ occurs p (Str.lower text).
Proof.
  intros text.
  assert (H : extract_frequency text = Ok (Some "three times daily"))
    by reflexivity.
  split; [exact H|].
  exact (extract_frequency_first_in_order text _ H).
Defined.

(** The loop of [extract_route] returns the category of the first entry
    with a phrase in the text. *)
Lemma route_loop_first (items : Dict.t (list string)) (t : string) :
  match route_loop items t with
  | Some c =>
      exists before patterns after,
        items = (before ++ (c, patterns) :: after)%list /\
        any_pattern_in patterns t = true /\
        forall c' ps, In (c', ps) before -> any_pattern_in ps t = false
  | None =>
      forall c ps, In (c, ps) items -> any_pattern_in ps t = false
  end.
Proof.
  induction items as [|[key ps] items IH]; cbn [route_loop].
  - intros c ps [].
  - destruct (any_pattern_in ps t) eqn:A.
    + exists [], ps, items. repeat split; auto. intros c' ps' [].
    + destruct (route_loop items t) as [c|].
      * destruct IH as (before & patterns & after & -> & A' & B).
        exists ((key, ps) :: before), patterns, after. repeat split; auto.
        intros c' ps' [E|I]; [injection E as <- <-; auto | eauto].
      * intros c ps' [E|I]; [injection E as <- <-; auto | eauto].
Qed.

(** X5.  [extract_route] returns the category of the first entry of
    [ROUTE_PATTERNS], in the order of the table, that has a surface
    phrase in the lower-cased text; so what it returns is one of the
    four categories of the table, and it returns nothing exactly when no
    phrase of the table occurs. *)
Theorem extract_route_first_entry (text : string) :
  (forall c, extract_route text = Some c ->
     exists before patterns after,
       ROUTE_PATTERNS = (before ++ (c, patterns) :: after)%list /\
       (exists p, In p patterns /\ occurs p (Str.lower text)) /\
       (forall c' ps p, In (c', ps) before -> In p ps ->
                        ~ occurs p (Str.lower text)) /\
       In c ["intravenous"; "intramuscular"; "subcutaneous"; "topical"]) /\
  (extract_route text = None <->
   forall c ps p, In (c, ps) ROUTE_PATTERNS -> In p ps ->
                  ~ occurs p (Str.lower text)).
Proof.
  unfold extract_route.
  pose proof (route_loop_first ROUTE_PATTERNS (Str.lower text)) as R.
  destruct (route_loop ROUTE_PATTERNS (Str.lower text)) as [c0|].
  - destruct R as (before & patterns & after & E & A & B).
    split; [|split; [discriminate|]].
    + intros c H. injection H as <-.
      exists before, patterns, after. repeat split; auto.
      * now apply any_pattern_in_iff.
      * intros c' ps p I Ip.
        now apply (proj1 (any_pattern_in_false ps _) (B c' ps I)).
      * assert (I : In (c0, patterns) ROUTE_PATTERNS)
          by (rewrite E; apply in_or_app; cbn; auto).
        rewrite ROUTE_PATTERNS_items in I. cbn in I.
        repeat match goal with
               | H : _ \/ _ |- _ => destruct H as [H|H]
               | H : (_, _) = (_, _) |- _ => injection H as <- <-
               | H : False |- _ => destruct H
               end; cbn; auto.
    + intros N. exfalso.
      apply any_pattern_in_iff in A as (p & Ip & O).
      refine (N c0 patterns p _ Ip O).
      rewrite E. apply in_or_app; cbn; auto.
  - split; [discriminate|]. split; auto.
    intros _ c ps p I Ip.
    now apply (proj1 (any_pattern_in_false ps _) (R c ps I)).
Qed.

(** ** The aggregator, further *)

Lemma find_medications_nonempty (text : string) :
  find_medications text <> [] <->
  exists med, In med KNOWN_MEDICATIONS /\ occurs med (Str.lower text).
Proof.
  rewrite find_medications_filter. split.
  - intros N.
    destruct (filter _ KNOWN_MEDICATIONS) as [|med l] eqn:E; [congruence|].
    assert (I : In med (filter (fun med => Str.contains med (Str.lower text))
                          KNOWN_MEDICATIONS))
      by (rewrite E; cbn; auto).
    apply filter_In in I as [I C]. apply contains_iff in C. eauto.
  - intros (med & I & O) E.
    assert (I' : In med (filter (fun med => Str.contains med (Str.lower text))
                           KNOWN_MEDICATIONS))
      by (apply filter_In; split; [|apply contains_iff]; auto).
    rewrite E in I'. destruct I'.
Qed.

(** X6.  [parse] fails exactly when some name of the vocabulary occurs
    in the lower-cased text and no surface phrase of the frequency table
    does; the failure is [KeyError('daily')], and it leaves the stored
    list, and with it [get_summary], as they were. *)
Theorem parse_raises_iff (text : string) (self : MedicationParser) :
  ((exists e, fst (parse text self) = Raise e) <->
   (exists med, In med KNOWN_MEDICATIONS /\ occurs med (Str.lower text)) /\
   (forall key patterns p,
       Dict.get FREQUENCY_PATTERNS key = Some patterns ->
       In p patterns -> ~ occurs p (Str.lower text))) /\
  (forall e self',
      parse text self = (Raise e, self') ->
      e = KeyError "daily" /\ self' = self /\
      get_summary self' = get_summary self).
Proof.
  rewrite parse_closed.
  pose proof (find_medications_nonempty text) as NE.
  destruct (find_medications text) as [|n found].
  - split; [split|].
    + intros (e & H). discriminate.
    + intros [M _]. apply NE in M. congruence.
    + intros e self' H. discriminate.
  - assert (M : exists med, In med KNOWN_MEDICATIONS /\
                            occurs med (Str.lower text))
      by (apply NE; discriminate).
    destruct (extract_frequency_outcome text)
      as [E|(k & ps & p & E & G & I & O)]; rewrite E; cbv zeta.
    + split; [split|].
      * intros _. split; auto. now apply extract_frequency_raises_inv.
      * intros _. now exists (KeyError "daily").
      * intros e self' H. injection H as <- <-. auto.
    + split; [split|].
      * intros (e & H). discriminate.
      * intros [_ N]. elim (N _ _ _ G I O).
      * intros e self' H. discriminate.
Qed.

(** X7.  A list that [parse] returns has one record per name that
    [find_medications] finds, in the same order, and it is the list the
    parser stores; it has at most as many records as the vocabulary has
    names. *)
Theorem parse_one_record_per_name (text : string)
        (self self' : MedicationParser) (meds : list Medication) :
  parse text self = (Ok meds, self') ->
  map name meds = find_medications text /\
  medications self' = meds /\
  List.length meds <= List.length KNOWN_MEDICATIONS.
Proof.
  intros P.
  assert (N : map name meds = find_medications text /\
              medications self' = meds).
  { rewrite parse_closed in P.
    destruct (find_medications text) as [|n found] eqn:F.
    - injection P as <- <-. auto.
    - destruct (extract_frequency text) as [f|e]; [|discriminate].
      cbv zeta in P. injection P as <- <-. split; [|reflexivity].
      change (map name (map (record_for text f) (n :: found)) = n :: found).
      rewrite map_map. cbn [name record_for]. apply map_id. }
  destruct N as [N1 N2]. repeat split; auto.
  rewrite <- (length_map name), N1, find_medications_filter.
  apply filter_length_le.
Qed.

Lemma parse_one_record_per_name_witness :
  let text := "Aspirin 81mg by mouth twice daily, then metformin" in
  let meds :=
    [ {| name := "metformin";
         dose := Some {| value := "81"; unit := "mg" |};
         frequency := Some "twice daily"; route := None |};
      {| name := "aspirin";
         dose := Some {| value := "81"; unit := "mg" |};
         frequency := Some "twice daily"; route := None |} ] in
  parse text __init__ = (Ok meds, {| medications := meds |}) /\
  map name meds = find_medications text /\
  medications {| medications := meds |} = meds /\
  List.length meds <= List.length KNOWN_MEDICATIONS.
Proof.
  intros text meds.
  assert (P : parse text __init__ = (Ok meds, {| medications := meds |}))
    by (vm_compute; reflexivity).
  split; [exact P|].
  exact (parse_one_record_per_name text __init__ _ meds P).
Defined.

(** ** Letter case *)

Lemma lower_char_idempotent (c : ascii) :
  Str.lower_char (Str.lower_char c) = Str.lower_char c.
Proof. destruct c as [[] [] [] [] [] [] [] []]; reflexivity. Qed.

Lemma lower_idempotent (s : string) : Str.lower (Str.lower s) = Str.lower s.
Proof.
  induction s as [|c s IH]; cbn [Str.lower]; [reflexivity|].
  now rewrite lower_char_idempotent, IH.
Qed.

(** X8.  Letter case does not matter: two texts with the same
    lower-cased form get the same answer from every extractor, from
    [find_medications], from [is_negated] and from [parse]; in
    particular a text and its lower-cased form do. *)
Theorem answers_ignore_case (text1 text2 : string) :
  Str.lower text1 = Str.lower text2 ->
  extract_dose text1 = extract_dose text2 /\
  extract_frequency text1 = extract_frequency text2 /\
  extract_route text1 = extract_route text2 /\
  find_medications text1 = find_medications text2 /\
  (forall med1 med2, Str.lower med1 = Str.lower med2 ->
     is_negated text1 med1 = is_negated text2 med2) /\
  (forall self, parse text1 self = parse text2 self) /\
  (forall self, parse (Str.lower text1) self = parse text1 self).
Proof.
  intros E.
  assert (A : forall t1 t2, Str.lower t1 = Str.lower t2 ->
     extract_dose t1 = extract_dose t2 /\
     extract_frequency t1 = extract_frequency t2 /\
     extract_route t1 = extract_route t2 /\
     find_medications t1 = find_medications t2).
  { intros t1 t2 H.
    unfold extract_dose, extract_frequency, extract_route, find_medications.
    now rewrite H. }
  assert (B : forall t1 t2 self, Str.lower t1 = Str.lower t2 ->
     parse t1 self = parse t2 self).
  { intros t1 t2 self H. rewrite !parse_closed.
    destruct (A t1 t2 H) as (D & F & R & M). rewrite M, F.
    destruct (find_medications t2); [reflexivity|].
    destruct (extract_frequency t2); [|reflexivity].
    unfold record_for. now rewrite D, R. }
  destruct (A _ _ E) as (D & F & R & M). repeat split; auto.
  - intros med1 med2 H. unfold is_negated. now rewrite E, H.
  - intros self. apply B, lower_idempotent.
Qed.

Lemma answers_ignore_case_witness :
  Str.lower "METFORMIN 500MG BID" = Str.lower "Metformin 500mg bid" /\
  extract_dose "METFORMIN 500MG BID" = extract_dose "Metformin 500mg bid" /\
  parse "METFORMIN 500MG BID" __init__
  = parse "Metformin 500mg bid" __init__.
Proof.
  assert (E : Str.lower "METFORMIN 500MG BID"
              = Str.lower "Metformin 500mg bid") by reflexivity.
  split; [exact E|].
  destruct (answers_ignore_case _ _ E) as (D & _ & _ & _ & _ & P & _).
  split; [exact D | exact (P __init__)].
Defined.

(** ** The negation checker, further *)

(** Two splittings of one string: the longer first part extends the
    shorter. *)
Lemma append_split (u v p q : string) :
  u ++ v = p ++ q -> length u <= length p ->
  exists r, p = u ++ r /\ v = r ++ q.
Proof.
  revert p; induction u as [|c u IH]; intros p E L; cbn in *.
  - exists p; auto.
  - destruct p as [|c' p]; cbn in *; [lia|].
    injection E as -> E. destruct (IH p E) as (r & -> & ->); [lia|].
    exists r; auto.
Qed.

(** The first occurrence stays the first when the text after it
    changes. *)
Lemma first_occurrence_tail (pat a b b' : string) :
  first_occurrence pat (a ++ pat ++ b) a b ->
  first_occurrence pat (a ++ pat ++ b') a b'.
Proof.
  intros [_ M]. split; [reflexivity|].
  intros a' x E.
  destruct (Nat.le_gt_cases (length a) (length a')) as [|Lt]; auto.
  rewrite <- !append_assoc in E. symmetry in E.
  apply append_split in E as (r & E & _);
    [|rewrite !length_append; lia].
  specialize (M a' (r ++ b)).
  rewrite <- !append_assoc, E, !append_assoc in M.
  specialize (M eq_refl). lia.
Qed.

(** X9.  When the lower-cased text begins with the lower-cased
    medication name, the medication is never reported as negated,
    whatever follows, later negated mentions of it included; and
    nothing is negated for the empty medication name. *)
Theorem is_negated_leading_medication (text medication : string) :
  (forall rest,
      Str.lower text = Str.lower medication ++ rest ->
      is_negated text medication = false) /\
  is_negated text "" = false.
Proof.
  split.
  - intros rest E. apply (is_negated_empty_window _ _ rest).
    split; [exact E|]. intros; cbn; lia.
  - apply (is_negated_empty_window _ _ (Str.lower text)).
    split; [reflexivity|]. intros; cbn; lia.
Qed.

Lemma is_negated_leading_medication_witness :
  let text := "ASPIRIN held; patient never took aspirin again" in
  let rest := " held; patient never took aspirin again" in
  Str.lower text = Str.lower "Aspirin" ++ rest /\
  is_negated text "Aspirin" = false.
Proof.
  intros text rest.
  assert (E : Str.lower text = Str.lower "Aspirin" ++ rest) by reflexivity.
  split; [exact E|].
  exact (proj1 (is_negated_leading_medication text "Aspirin") rest E).
Defined.

(** X10.  Only the text before the first occurrence of the medication
    counts: two texts that agree, lower-cased, up to and including that
    occurrence get the same answer, whatever comes after it. *)
Theorem is_negated_ignores_later_text
        (text1 text2 medication a b1 b2 : string) :
  first_occurrence (Str.lower medication) (Str.lower text1) a b1 ->
  Str.lower text2 = a ++ Str.lower medication ++ b2 ->
  is_negated text2 medication = is_negated text1 medication.
Proof.
  intros F1 E2.
  assert (F2 : first_occurrence (Str.lower medication) (Str.lower text2)
                 a b2).
  { rewrite E2. apply (first_occurrence_tail _ _ b1).
    destruct F1 as [E1 M]. now rewrite <- E1. }
  destruct (lookback_window_exists a) as [w W].
  now rewrite (is_negated_window _ _ a b1 w F1 W),
              (is_negated_window _ _ a b2 w F2 W).
Qed.

(** A position that [find_from] reports is that of the first
    occurrence. *)
Lemma first_occurrence_of_find (pat a b : string) :
  Str.find_from pat (a ++ pat ++ b) 0 = Some (length a) ->
  first_occurrence pat (a ++ pat ++ b) a b.
Proof.
  intros H. split; [reflexivity|]. intros a' b' E.
  apply find_from_Some in H as (a1 & b1 & [_ M] & L).
  cbn in L. rewrite L. now apply (M a' b').
Qed.

Lemma is_negated_ignores_later_text_witness :
  let text1 := "Continue aspirin daily" in
  let text2 := "Continue aspirin; patient stopped aspirin last week" in
  first_occurrence (Str.lower "aspirin") (Str.lower text1)
                   "continue " " daily" /\
  Str.lower text2
  = "continue " ++ Str.lower "aspirin"
    ++ "; patient stopped aspirin last week" /\
  is_negated text2 "aspirin" = is_negated text1 "aspirin".
Proof.
  intros text1 text2.
  assert (F : first_occurrence (Str.lower "aspirin") (Str.lower text1)
                "continue " " daily")
    by (apply (first_occurrence_of_find "aspirin" "continue " " daily");
        reflexivity).
  assert (E : Str.lower text2
              = "continue " ++ Str.lower "aspirin"
                ++ "; patient stopped aspirin last week") by reflexivity.
  split; [exact F|]. split; [exact E|].
  exact (is_negated_ignores_later_text text1 text2 "aspirin" _ _ _ F E).
Defined.

(** ** The summary of a parse *)

(** The names of the categories are not empty, so [get_summary] never
    takes a route or frequency that was found for a missing one. *)
Lemma truthy_route (text r : string) :
  extract_route text = Some r -> truthy (Some r) = true.
Proof.
  rewrite extract_route_chain; cbv zeta.
  repeat match goal with
         | |- context [any_pattern_in ?l ?t] => destruct (any_pattern_in l t)
         end;
    intros H; try discriminate; now injection H as <-.
Qed.

Lemma truthy_frequency (text f : string) :
  extract_frequency text = Ok (Some f) -> truthy (Some f) = true.
Proof.
  rewrite extract_frequency_chain; cbv zeta.
  repeat match goal with
         | |- context [any_pattern_in ?l ?t] => destruct (any_pattern_in l t)
         end;
    intros H; try discriminate; now injection H as <-.
Qed.

Lemma summary_line_record (text : string) (f : option string) (n : string) :
  extract_frequency text = Ok f ->
  summary_line (record_for text f n) =
  Str.join " "
    (Str.capitalize n
       :: detail_parts (extract_dose text) (extract_route text) f).
Proof.
  intros F. unfold summary_line, record_for, detail_parts.
  cbn [name dose route frequency].
  destruct (extract_dose text) as [d|];
    destruct (extract_route text) as [r|] eqn:R;
    destruct f as [f|];
    try rewrite (truthy_route text r R);
    try rewrite (truthy_frequency text f F);
    reflexivity.
Qed.

(** X11.  After a call of [parse] that returned records, [get_summary]
    has one line per name found, in the order of [find_medications]: the
    capitalized name and then, for every line alike, the dose as value
    and unit, the route and the frequency found in the whole text, each
    left out only when it was not found. *)
Theorem get_summary_after_parse (text : string)
        (self self' : MedicationParser) (meds : list Medication) :
  parse text self = (Ok meds, self') ->
  meds <> [] ->
  exists f,
    extract_frequency text = Ok f /\
    get_summary self' =
    Str.join newline
      (map (fun n =>
              Str.join " "
                (Str.capitalize n
                   :: detail_parts (extract_dose text) (extract_route text) f))
           (find_medications text)).
Proof.
  intros P N. rewrite parse_closed in P.
  destruct (find_medications text) as [|n found].
  - injection P as <- _. congruence.
  - destruct (extract_frequency text) as [f|e] eqn:F; [|discriminate].
    cbv zeta in P. injection P as _ <-.
    exists f. split; [reflexivity|].
    unfold get_summary. cbn [medications].
    change (map (record_for text f) (n :: found))
      with (record_for text f n :: map (record_for text f) found).
    cbv iota.
    change (record_for text f n :: map (record_for text f) found)
      with (map (record_for text f) (n :: found)).
    rewrite map_map. f_equal. apply map_ext.
    intros a. now apply summary_line_record.
Qed.

Lemma get_summary_after_parse_witness :
  let text := "Metformin 500mg IV bid, lisinopril" in
  let meds :=
    [ {| name := "metformin";
         dose := Some {| value := "500"; unit := "mg" |};
         frequency := Some "twice daily"; route := Some "intravenous" |};
      {| name := "lisinopril";
         dose := Some {| value := "500"; unit := "mg" |};
         frequency := Some "twice daily"; route := Some "intravenous" |} ] in
  parse text __init__ = (Ok meds, {| medications := meds |}) /\
  meds <> [] /\
  exists f,
    extract_frequency text = Ok f /\
    get_summary {| medications := meds |} =
    Str.join newline
      (map (fun n =>
              Str.join " "
                (Str.capitalize n
                   :: detail_parts (extract_dose text) (extract_route text) f))
           (find_medications text)).
Proof.
  intros text meds.
  assert (P : parse text __init__ = (Ok meds, {| medications := meds |}))
    by (vm_compute; reflexivity).
  assert (N : meds <> []) by discriminate.
  split; [exact P|]. split; [exact N|].
  exact (get_summary_after_parse text __init__ _ meds P N).
Defined.

(** ** The demonstration *)

(** The names that the annotations load and nothing binds. *)
Lemma class_body_at_definition :
  class_body AtDefinition = Some (NameError "Optional").
Proof. reflexivity. Qed.

(** X12.  Run as a script, the module behaves in one of two ways.
    Where annotations are evaluated as a function is defined, the class
    body stops at [extract_dose] with a [NameError] for [Optional],
    which nothing imports; [main] is never defined and nothing is
    printed.  Where annotations are deferred, [main] writes the heading,
    a rule of 40 dashes, the summary, the rule again and the count; the
    note lists three medications with a dose each (500mg, 10mg, 81mg)
    and two different frequencies, and the summary gives all three the
    first dose and the frequency twice daily, and no route. *)
Theorem run_script_outcome :
  run_script AtDefinition = ([], Some (NameError "Optional")) /\
  run_script Deferred =
  ([ "Parsed Medications:";
     "----------------------------------------";
     "Metformin 500mg twice daily" ++ newline
     ++ "Lisinopril 500mg twice daily" ++ newline
     ++ "Aspirin 500mg twice daily";
     "----------------------------------------";
     "Total medications found: 3" ],
   None).
Proof. split; vm_compute; reflexivity. Qed.
